(** * Frequency monitor dashboard ([src/app.py]): a shallow embedding

    The Streamlit script is one straight-line module that is re-executed
    from the top on every refresh.  One execution ("cycle") is modelled as
    a computation in a small monad that threads

    - the module-level mutable list [audio_elements],
    - the sequence of Streamlit calls made so far (the rendered page),
    - Python exceptions ([try]/[except] is [try_except]).

    Everything outside the script -- the widgets' values, [st.secrets],
    the filesystem, the S3 service, the pandas CSV and datetime parsers and
    the wall clock -- is read from a record [World], one snapshot per
    cycle.  A Streamlit or plotly call is recorded with its arguments and
    taken to succeed; the page title and the sidebar headers are left
    out. *)

From Stdlib Require Import List String Ascii ZArith QArith Qpower Bool Lia.
From Stdlib Require Import DecimalString DecimalZ SpecFloat Sorted.
Import ListNotations.

Open Scope string_scope.
Open Scope Z_scope.
Open Scope list_scope.

(** ** Python exceptions *)

(** The exception classes the script can meet.  [ClientError] is botocore's
    (the only class the script names in an [except] clause); [OtherError]
    stands for any further subclass of [Exception] raised inside a library
    ([EmptyDataError], [ParserError], [UnknownTimeZoneError], ...). *)
Inductive exn : Type :=
| KeyError (key : string)
| IndexError
| TypeError
| ValueError
| ClientError (code : string)
| OtherError (name : string).

Inductive result (A : Type) : Type :=
| Ok (a : A)
| Raise (e : exn).
Arguments Ok {A} a.
Arguments Raise {A} e.

(** [except ClientError] *)
Definition is_ClientError (e : exn) : bool :=
  match e with ClientError _ => true | _ => false end.

(** [e.response['Error']['Code']] of a [ClientError] *)
Definition error_code (e : exn) : string :=
  match e with ClientError code => code | _ => "" end.

(** ** Values held by a DataFrame *)

(** A [float64] scalar, with IEEE-754 comparisons ([SFltb], [SFleb]).
    Numeric CSV columns are taken at their [float64] value. *)
Definition float64 : Type := spec_float.

(** A cell as [pd.read_csv] produces it (no [parse_dates]): a number or a
    string ([object] dtype). *)
Inductive cell : Type :=
| CNum (x : float64)
| CStr (s : string).

(** A [pd.Timestamp] without timezone: nanoseconds of wall-clock time, or
    [NaT]. *)
Definition Timestamp : Type := option Z.

(** A DataFrame as read from a CSV file: header and rows.  A row shorter
    than the header reads as NaN in the missing places, as [read_csv]
    fills it. *)
Record Frame : Type := mkFrame {
  columns : list string;
  rows : list (list cell)
}.

(** The sample window once [load_data] has run
    [data['time'] = pd.to_datetime(data['time'])]: the frame as read, and
    the converted column that now stands for ['time']. *)
Record Data : Type := mkData {
  d_frame : Frame;
  d_time : list Timestamp
}.

Fixpoint index_of (c : string) (cs : list string) : option nat :=
  match cs with
  | [] => None
  | c' :: cs' =>
      if String.eqb c c' then Some O
      else match index_of c cs' with
           | Some n => Some (S n)
           | None => None
           end
  end.

(** [df[c]] *)
Definition getitem (df : Frame) (c : string) : result (list cell) :=
  match index_of c (columns df) with
  | Some n => Ok (map (fun r => nth n r (CNum S754_nan)) (rows df))
  | None => Raise (KeyError c)
  end.

(** [bounds[c]] where [bounds] may be [None]:
    ['NoneType' object is not subscriptable]. *)
Definition getitem_opt (df : option Frame) (c : string) : result (list cell) :=
  match df with
  | Some f => getitem f c
  | None => Raise TypeError
  end.

(** [series.iloc[0]] *)
Definition iloc_first {A : Type} (s : list A) : result A :=
  match s with
  | [] => Raise IndexError
  | x :: _ => Ok x
  end.

(** [series.iloc[-1]] *)
Fixpoint iloc_last {A : Type} (s : list A) : result A :=
  match s with
  | [] => Raise IndexError
  | [x] => Ok x
  | _ :: s' => iloc_last s'
  end.

(** [df.empty]: some axis has length zero. *)
Definition empty (df : Frame) : bool :=
  match columns df, rows df with
  | [], _ => true
  | _, [] => true
  | _, _ => false
  end.

(** [c in df.columns] *)
Definition has_column (df : Frame) (c : string) : bool :=
  match index_of c (columns df) with Some _ => true | None => false end.

(** ** Comparisons *)

(** [a < b] on two cells: IEEE on numbers, lexicographic on strings,
    [TypeError] on a number against a string. *)
Definition cell_lt (a b : cell) : result bool :=
  match a, b with
  | CNum x, CNum y => Ok (SFltb x y)
  | CStr s, CStr t => Ok (String.ltb s t)
  | _, _ => Raise TypeError
  end.

(** [a > b] *)
Definition cell_gt (a b : cell) : result bool := cell_lt b a.

(** [d > t] for a Python float [d] and a Python int [t]: CPython compares
    the two exactly, without rounding [t] to a float. *)
Definition float_gt_int (d : float64) (t : Z) : bool :=
  match d with
  | S754_nan => false
  | S754_infinity s => negb s
  | S754_zero _ => t <? 0
  | S754_finite s m e =>
      let n := cond_Zopp s (Zpos m) in
      if 0 <=? e then t <? n * 2 ^ e else t * 2 ^ (- e) <? n
  end.

(** [f"{x:.1f}"]: defined on numbers; a string raises
    [ValueError: Unknown format code 'f']. *)
Definition format_1f (c : cell) : result float64 :=
  match c with
  | CNum x => Ok x
  | CStr _ => Raise ValueError
  end.

(** ** Strings and paths *)

(** [str(n)] *)
Definition str_of_Z (z : Z) : string := NilZero.string_of_int (Z.to_int z).

(** [s.split(sep)] for a one-character separator: never empty. *)
Fixpoint split_aux (sep : ascii) (s : string) (cur : string) : list string :=
  match s with
  | EmptyString => [cur]
  | String c s' =>
      if Ascii.eqb c sep then cur :: split_aux sep s' ""
      else split_aux sep s' (cur ++ String c "")%string
  end.

Definition split (sep : ascii) (s : string) : list string := split_aux sep s "".

(** The whitespace [int()] skips around a literal: tab, line feed,
    vertical tab, form feed, carriage return and space. *)
Definition is_space (c : ascii) : bool :=
  let n := nat_of_ascii c in
  (Nat.leb 9 n && Nat.leb n 13) || Nat.eqb n 32.

Definition is_digit (c : ascii) : bool :=
  let n := nat_of_ascii c in Nat.leb 48 n && Nat.leb n 57.

Definition digit_val (c : ascii) : Z := Z.of_nat (nat_of_ascii c) - 48.

Fixpoint lstrip (s : string) : string :=
  match s with
  | String c s' => if is_space c then lstrip s' else s
  | EmptyString => EmptyString
  end.

Fixpoint rev_string (s : string) (acc : string) : string :=
  match s with
  | EmptyString => acc
  | String c s' => rev_string s' (String c acc)
  end.

Definition strip (s : string) : string :=
  rev_string (lstrip (rev_string (lstrip s) "")) "".

(** Digits of an [int] literal, single underscores allowed between digits.
    [after_digit] tells whether the previous character was a digit. *)
Fixpoint int_digits (s : string) (acc : Z) (after_digit : bool) : option Z :=
  match s with
  | EmptyString => if after_digit then Some acc else None
  | String c s' =>
      if is_digit c then int_digits s' (10 * acc + digit_val c) true
      else if Ascii.eqb c "_" then
        if after_digit then int_digits s' acc false else None
      else None
  end.

(** [int(s)] on an ASCII string: surrounding whitespace, an optional sign,
    decimal digits; anything else is a [ValueError].  File names and
    object keys are taken to be ASCII: the decimal digits of other
    scripts, which [int()] reads too, are not represented. *)
Definition py_int (s : string) : result Z :=
  let s := strip s in
  let '(neg, body) :=
    match s with
    | String "+" r => (false, r)
    | String "-" r => (true, r)
    | _ => (false, s)
    end in
  match int_digits body 0 false with
  | Some n => Ok (if neg then - n else n)
  | None => Raise ValueError
  end.

(** [f.split('_')[-1].split('.')[0]] *)
Definition device_suffix (f : string) : string :=
  hd "" (split "." (last (split "_" f) "")).

(** [os.path.join(a, b)] (POSIX). *)
Definition path_join (a b : string) : string :=
  match b with
  | String "/" _ => b
  | _ =>
      match a with
      | EmptyString => b
      | _ => if String.eqb (substring (String.length a - 1) 1 a) "/"
             then (a ++ b)%string else (a ++ "/" ++ b)%string
      end
  end.

(** ** The rendered page *)

(** Where on the page a call lands: the main area, column [i] of
    [st.columns(len(device_numbers))], or one of the two metric columns
    created inside column [i]. *)
Inductive region : Type :=
| Main
| Col (i : nat)
| Sub (i : nat) (j : nat).

(** The texts the script shows, with the values interpolated in them. *)
Inductive message : Type :=
| MsgS3ClientFailed (e : exn)        (* Failed to create S3 client: {e} *)
| MsgS3Access (e : exn)              (* Error accessing S3: {e} *)
| MsgS3Load (e : exn)                (* Error loading S3 data: {e} *)
| MsgLoad (device_num : Z) (e : exn) (* Error loading data for device {n}: {e} *)
| MsgS3List (e : exn)                (* Error listing S3 objects: {e} *)
| MsgNoDevices                       (* No device data found in the recent data directory. *)
| MsgFreqOutOfBounds                 (* Frequency out of bounds! *)
| MsgDelayExceeds (delay : float64) (threshold : Z)
                                     (* Delay exceeds threshold ({delay:.1f}s > {t}s)! *)
| MsgWithinBounds                    (* Frequency within bounds *)
| MsgProcessingData (device_num : Z) (e : exn)
                                     (* Error processing data for Device {n}: {e} *)
| MsgNoValidData (device_num : Z)    (* No valid data available for Device {n} *)
| MsgProcessingDevice (device_num : Z) (e : exn).
                                     (* Error processing Device {n}: {e} *)

Inductive metric_label : Type :=
| LblCurrentFrequency (device_num : Z) (* Device {n} Current Frequency *)
| LblDelay.                            (* Delay *)

(** What [create_plot] asks of plotly. *)
Inductive plot_item : Type :=
| Scatter (x : list Timestamp) (y : list cell) (mode name color : string)
          (width : Z)
| HLine (y : cell) (name : string)
| HRect (y0 y1 : cell) (fillcolor name : string).

Record Figure : Type := mkFigure {
  fig_items : list plot_item;
  fig_title_device : Z;                (* Device {n} Frequency Data *)
  fig_yrange : option (cell * cell)
}.

Inductive ui : Type :=
| StError (m : message)
| StWarning (m : message)
| StSuccess (m : message)
| StMetric (label : metric_label) (value : float64)
| StAudio (path : string) (autoplay loop : bool)
| StPlotlyChart (fig : Figure)
| TimeSleep (seconds : Z)
| StRerun.

Definition event : Type := (region * ui)%type.

(** ** The cycle monad *)

(** The module-level list [audio_elements]: one entry (the played file)
    per [st.audio] element appended. *)
Definition State : Type := list string.

Definition M (A : Type) : Type := State -> list event * State * result A.

Definition ret {A : Type} (a : A) : M A := fun st => ([], st, Ok a).

Definition bind {A B : Type} (m : M A) (k : A -> M B) : M B :=
  fun st =>
    match m st with
    | (tr, st', Ok a) =>
        match k a st' with
        | (tr', st'', r) => (tr ++ tr', st'', r)
        end
    | (tr, st', Raise e) => (tr, st', Raise e)
    end.

Definition raise {A : Type} (e : exn) : M A := fun st => ([], st, Raise e).

(** A library call that returns or raises. *)
Definition lift {A : Type} (r : result A) : M A := fun st => ([], st, r).

(** A Streamlit call placed in region [rg]. *)
Definition emit (rg : region) (u : ui) : M unit :=
  fun st => ([(rg, u)], st, Ok tt).

Definition get_audio_elements : M State := fun st => ([], st, Ok st).

Definition set_audio_elements (l : State) : M unit := fun _ => ([], l, Ok tt).

(** [try: m  except <catches> as e: h e].  What [m] rendered and what it
    appended before raising stays. *)
Definition try_except {A : Type} (m : M A) (catches : exn -> bool)
    (h : exn -> M A) : M A :=
  fun st =>
    match m st with
    | (tr, st', Ok a) => (tr, st', Ok a)
    | (tr, st', Raise e) =>
        if catches e then
          match h e st' with
          | (tr', st'', r) => (tr ++ tr', st'', r)
          end
        else (tr, st', Raise e)
    end.

(** [except Exception] *)
Definition any_exception (e : exn) : bool := true.

Declare Scope cycle_scope.
Delimit Scope cycle_scope with cycle.
Notation "x <- m ;; k" := (bind m (fun x => k))
  (at level 61, m at next level, right associativity) : cycle_scope.
Notation "m ;; k" := (bind m (fun _ => k))
  (at level 61, right associativity) : cycle_scope.
Open Scope cycle_scope.

(** [for i, x in enumerate(xs): body i x], counting from [i]. *)
Fixpoint for_enumerate {A : Type} (body : nat -> A -> M unit) (i : nat)
    (xs : list A) : M unit :=
  match xs with
  | [] => ret tt
  | x :: xs' => body i x ;; for_enumerate body (S i) xs'
  end.

(** [[f x for x in xs]]: the first exception ends the comprehension. *)
Fixpoint list_comprehension {A B : Type} (f : A -> result B) (xs : list A)
    : result (list B) :=
  match xs with
  | [] => Ok []
  | x :: xs' =>
      match f x with
      | Raise e => Raise e
      | Ok y =>
          match list_comprehension f xs' with
          | Raise e => Raise e
          | Ok ys => Ok (y :: ys)
          end
      end
  end.

(** ** The world of one cycle *)

Record World : Type := mkWorld {
  (* sidebar widgets *)
  use_s3 : bool;
  refresh_interval : Z;
  delay_threshold : Z;
  (* st.secrets[...] *)
  secrets : string -> option string;
  (* the [artifacts] directory beside the script *)
  artifacts_dir : string;
  (* filesystem: glob(pattern), os.path.exists(p), pd.read_csv(p) *)
  glob : string -> list string;
  path_exists : string -> bool;
  read_csv_path : string -> result Frame;
  (* boto3.client('s3', key, secret) *)
  boto3_client : string -> string -> result unit;
  (* list_objects_v2(Bucket, Prefix): the keys under 'Contents' *)
  list_objects_v2 : string -> string -> result (list string);
  (* get_object(Bucket, Key)['Body'].read() *)
  get_object : string -> string -> result string;
  (* pd.read_csv(io.BytesIO(body)) *)
  read_csv_bytes : string -> result Frame;
  (* pd.to_datetime(column) *)
  to_datetime : list cell -> result (list Timestamp);
  (* column.min(), column.max() *)
  series_min : list cell -> result cell;
  series_max : list cell -> result cell;
  (* for the device in column i, last sample at [t], timezone cell [tz]:
     (pd.Timestamp.now(tz) - pd.to_datetime(t).tz_localize(tz)).total_seconds() *)
  delay_seconds : nat -> Timestamp -> cell -> result float64
}.

(** ** The script *)

(** [st.secrets[k]] *)
Definition secret (w : World) (k : string) : result string :=
  match secrets w k with
  | Some v => Ok v
  | None => Raise (KeyError k)
  end.

Definition s3_prefix : string := "recent_data/".

(** [recent_data_dir] (lines 27-31) *)
Definition recent_data_dir (w : World) : string :=
  path_join (artifacts_dir w) "recent_data".

(** [get_s3_client] (lines 33-44) *)
Definition get_s3_client (w : World) : M (option unit) :=
  try_except
    (key <- lift (secret w "S3_KEY") ;;
     sec <- lift (secret w "S3_SECRET") ;;
     s3_client <- lift (boto3_client w key sec) ;;
     ret (Some s3_client))
    any_exception
    (fun e => emit Main (StError (MsgS3ClientFailed e)) ;; ret None).

(** [data['time'] = pd.to_datetime(data['time'])] (lines 63 and 97).
    Assigning a column of another length than the frame's index is a
    [ValueError]. *)
Definition convert_time (w : World) (df : Frame) : M Data :=
  col <- lift (getitem df "time") ;;
  ts <- lift (to_datetime w col) ;;
  if Nat.eqb (List.length ts) (List.length (rows df)) then ret (mkData df ts)
  else raise ValueError.

Definition recent_data_name (device_num : Z) : string :=
  ("recent_data_device_" ++ str_of_Z device_num ++ ".csv")%string.

Definition freq_bounds_name (device_num : Z) : string :=
  ("freq_bounds_device_" ++ str_of_Z device_num ++ ".csv")%string.

(** Lines 55-56 *)
Definition data_key (device_num : Z) : string :=
  (s3_prefix ++ recent_data_name device_num)%string.

Definition bounds_key (device_num : Z) : string :=
  (s3_prefix ++ freq_bounds_name device_num)%string.

(** Lines 90-91 *)
Definition recent_data_file (w : World) (device_num : Z) : string :=
  path_join (recent_data_dir w) (recent_data_name device_num).

Definition bounds_file (w : World) (device_num : Z) : string :=
  path_join (recent_data_dir w) (freq_bounds_name device_num).

(** [load_s3_data] (lines 46-82); [s3_bucket] is the module-level global
    of line 23. *)
Definition load_s3_data (w : World) (s3_bucket : string) (device_num : Z)
    : M (option Data * option Frame) :=
  s3_client <- get_s3_client w ;;
  match s3_client with
  | None => ret (None, None)
  | Some _ =>
      try_except
        (try_except
           (body <- lift (get_object w s3_bucket (data_key device_num)) ;;
            df <- lift (read_csv_bytes w body) ;;
            data <- convert_time w df ;;
            bounds <-
              try_except
                (bounds_body <-
                   lift (get_object w s3_bucket (bounds_key device_num)) ;;
                 b <- lift (read_csv_bytes w bounds_body) ;;
                 ret (Some b))
                is_ClientError
                (fun _ => ret None) ;;
            ret (Some data, bounds))
           is_ClientError
           (fun e =>
              if String.eqb (error_code e) "NoSuchKey" then ret (None, None)
              else emit Main (StError (MsgS3Access e)) ;; ret (None, None)))
        any_exception
        (fun e => emit Main (StError (MsgS3Load e)) ;; ret (None, None))
  end.

(** [load_data] (lines 85-106) *)
Definition load_data (w : World) (s3_bucket : string) (device_num : Z)
    : M (option Data * option Frame) :=
  if use_s3 w then load_s3_data w s3_bucket device_num
  else
    try_except
      (if negb (path_exists w (recent_data_file w device_num))
       then ret (None, None)
       else
         df <- lift (read_csv_path w (recent_data_file w device_num)) ;;
         data <- convert_time w df ;;
         bounds <-
           (if path_exists w (bounds_file w device_num)
            then b <- lift (read_csv_path w (bounds_file w device_num)) ;;
                 ret (Some b)
            else ret None) ;;
         ret (Some data, bounds))
      any_exception
      (fun e => emit Main (StError (MsgLoad device_num e)) ;; ret (None, None)).

(** [create_plot] (lines 109-177) *)
Definition create_plot (w : World) (data : Data) (bounds : option Frame)
    (device_num : Z) : M Figure :=
  freq <- lift (getitem (d_frame data) "freq") ;;
  freq_filtered <- lift (getitem (d_frame data) "freq_filtered") ;;
  let series :=
    [ Scatter (d_time data) freq "lines+markers" "Raw Frequency" "blue" 1;
      Scatter (d_time data) freq_filtered "lines" "Filtered Frequency" "red" 2 ]
  in
  fills <-
    match bounds with
    | Some b =>
        min_col <- lift (getitem b "min_freq") ;;
        min_freq <- lift (iloc_first min_col) ;;
        max_col <- lift (getitem b "max_freq") ;;
        max_freq <- lift (iloc_first max_col) ;;
        lo <- lift (series_min w freq_filtered) ;;
        hi <- lift (series_max w freq_filtered) ;;
        ret [ HLine min_freq "Lower Bound";
              HLine max_freq "Upper Bound";
              HRect min_freq max_freq "lightgreen" "Normal Range";
              HRect lo min_freq "red" "Below Range";
              HRect max_freq hi "red" "Above Range" ]
    | None => ret []
    end ;;
  yrange <-
    match bounds with
    | Some b =>
        if negb (empty b) && (has_column b "y_min" && has_column b "y_max")
        then
          ymin_col <- lift (getitem b "y_min") ;;
          y_min <- lift (iloc_first ymin_col) ;;
          ymax_col <- lift (getitem b "y_max") ;;
          y_max <- lift (iloc_first ymax_col) ;;
          ret (Some (y_min, y_max))
        else ret None
    | None => ret None
    end ;;
  ret (mkFigure (series ++ fills) device_num yrange).

(** Line 258: [current_freq < min_freq or current_freq > max_freq]; the
    right operand is evaluated only when the left one is false. *)
Definition freq_out_of_bounds (current_freq min_freq max_freq : cell)
    : result bool :=
  match cell_lt current_freq min_freq with
  | Raise e => Raise e
  | Ok true => Ok true
  | Ok false => cell_gt current_freq max_freq
  end.

(** Line 259: [delay > delay_threshold] *)
Definition delay_too_large (delay : float64) (threshold : Z) : bool :=
  float_gt_int delay threshold.

Definition warning_wav (w : World) : string :=
  path_join (artifacts_dir w) "warning.wav".

(** Lines 261-273: banners and the audio cue. *)
Definition alert (w : World) (i : nat) (delay : float64)
    (freq_oob delay_late : bool) : M unit :=
  if freq_oob || delay_late then
    (if freq_oob then emit (Col i) (StError MsgFreqOutOfBounds) else ret tt) ;;
    (if delay_late
     then emit (Col i) (StError (MsgDelayExceeds delay (delay_threshold w)))
     else ret tt) ;;
    audio_elements <- get_audio_elements ;;
    if Nat.eqb (List.length audio_elements) 0 then
      emit (Col i) (StAudio (warning_wav w) true true) ;;
      set_audio_elements (audio_elements ++ [warning_wav w])
    else ret tt
  else emit (Col i) (StSuccess MsgWithinBounds).

(** Lines 255-273: the check against the bounds. *)
Definition check_bounds (w : World) (i : nat) (bounds : option Frame)
    (current_freq : cell) (delay : float64) : M unit :=
  match bounds with
  | Some b =>
      if negb (empty b) then
        min_col <- lift (getitem b "min_freq") ;;
        min_freq <- lift (iloc_first min_col) ;;
        max_col <- lift (getitem b "max_freq") ;;
        max_freq <- lift (iloc_first max_col) ;;
        freq_oob <- lift (freq_out_of_bounds current_freq min_freq max_freq) ;;
        alert w i delay freq_oob (delay_too_large delay (delay_threshold w))
      else ret tt
  | None => ret tt
  end.

(** Lines 233-277: the body of the inner [try], inside [with cols[i]]. *)
Definition show_device (w : World) (i : nat) (device_num : Z) (data : Data)
    (bounds : option Frame) : M unit :=
  filtered <- lift (getitem (d_frame data) "freq_filtered") ;;
  current_freq <- lift (iloc_last filtered) ;;
  last_time <- lift (iloc_last (d_time data)) ;;
  tz_col <- lift (getitem_opt bounds "timezone") ;;
  timezone <- lift (iloc_first tz_col) ;;
  delay <- lift (delay_seconds w i last_time timezone) ;;
  shown_freq <- lift (format_1f current_freq) ;;
  emit (Sub i 0) (StMetric (LblCurrentFrequency device_num) shown_freq) ;;
  emit (Sub i 1) (StMetric LblDelay delay) ;;
  check_bounds w i bounds current_freq delay ;;
  fig <- create_plot w data bounds device_num ;;
  emit (Col i) (StPlotlyChart fig).

(** [data is not None and not data.empty] (line 230) *)
Definition has_rows (data : option Data) : bool :=
  match data with
  | Some d => negb (empty (d_frame d))
  | None => false
  end.

(** Lines 227-285: one turn of the loop. *)
Definition device_region (w : World) (s3_bucket : string) (i : nat)
    (device_num : Z) : M unit :=
  try_except
    (loaded <- load_data w s3_bucket device_num ;;
     let '(data, bounds) := loaded in
     match data with
     | Some d =>
         if has_rows data then
           try_except
             (show_device w i device_num d bounds)
             any_exception
             (fun e => emit (Col i) (StError (MsgProcessingData device_num e)))
         else emit (Col i) (StWarning (MsgNoValidData device_num))
     | None => emit (Col i) (StWarning (MsgNoValidData device_num))
     end)
    any_exception
    (fun e => emit (Col i) (StError (MsgProcessingDevice device_num e))).

(** [[int(f.split('_')[-1].split('.')[0]) for f in device_files]] *)
Definition parse_device_numbers (device_files : list string)
    : result (list Z) :=
  list_comprehension (fun f => py_int (device_suffix f)) device_files.

(** Line 205: [f"{s3_prefix.rstrip('/')}/recent_data_device_"] *)
Definition listing_prefix : string := "recent_data/recent_data_device_".

(** Line 215: the pattern given to [glob]. *)
Definition glob_pattern (w : World) : string :=
  path_join (recent_data_dir w) "recent_data_device_*.csv".

(** Lines 199-216: discovery of [device_numbers]. *)
Definition discover (w : World) (s3_bucket : string) : M (list Z) :=
  if use_s3 w then
    s3_client <- get_s3_client w ;;
    match s3_client with
    | Some _ =>
        try_except
          (device_files <-
             lift (list_objects_v2 w s3_bucket listing_prefix) ;;
           lift (parse_device_numbers device_files))
          any_exception
          (fun e => emit Main (StError (MsgS3List e)) ;; ret [])
    | None => ret []
    end
  else
    let device_files := glob w (glob_pattern w) in
    lift (parse_device_numbers device_files).

(** Lines 22-24: [s3_bucket], bound in remote mode only. *)
Definition read_s3_bucket (w : World) : M string :=
  if use_s3 w then lift (secret w "S3_BUCKET_NAME") else ret "".

(** The whole module, once.  [Raise e] is an exception no handler caught:
    the run is aborted there. *)
Definition script (w : World) : M unit :=
  s3_bucket <- read_s3_bucket w ;;
  device_numbers <- discover w s3_bucket ;;
  set_audio_elements [] ;;
  match device_numbers with
  | [] => emit Main (StWarning MsgNoDevices)
  | _ :: _ =>
      for_enumerate (device_region w s3_bucket) 0 device_numbers ;;
      emit Main (TimeSleep (refresh_interval w)) ;;
      emit Main StRerun
  end.

(** One cycle: a fresh interpreter state, the page it renders and how the
    run ended. *)
Definition run_cycle (w : World) : list event * result unit :=
  match script w [] with
  | (page, _, r) => (page, r)
  end.

Definition page_of (w : World) : list event := fst (run_cycle w).

Definition is_rerun (ev : event) : bool :=
  match ev with
  | (_, StRerun) => true
  | _ => false
  end.

(** The dashboard over the successive states of the world: a next cycle
    starts only when the running one called [st.rerun()]. *)
Fixpoint dashboard (worlds : list World) : list (list event) :=
  match worlds with
  | [] => []
  | w :: ws =>
      page_of w :: (if existsb is_rerun (page_of w) then dashboard ws else [])
  end.

(** ** Worlds to run the script on *)

(** The [float64] nearest to an integer. *)
Definition float_of_Z (z : Z) : float64 := binary_normalize 53 1024 z 0 false.

Fixpoint assoc {A : Type} (k : string) (l : list (string * A)) : option A :=
  match l with
  | [] => None
  | (k', v) :: l' => if String.eqb k k' then Some v else assoc k l'
  end.

(** A small timestamp parser for the sample files below. *)
Definition example_to_datetime (col : list cell) : result (list Timestamp) :=
  list_comprehension
    (fun c =>
       match c with
       | CStr "2024-01-01T00:00:00" => Ok (Some 1704067200000000000)
       | CStr "" => Ok None
       | _ => Raise (OtherError "DateParseError")
       end)
    col.

(** [column.min()] and [column.max()] on a column of one row. *)
Definition example_extreme (col : list cell) : result cell :=
  match col with
  | [c] => Ok c
  | _ => Ok (CNum S754_nan)
  end.

(** A local-mode world: [files] are the CSV files under
    [/app/artifacts/recent_data] with what [pd.read_csv] makes of each,
    [listing] is what [glob] returns, [delays] the staleness measured for
    each column. *)
Definition local_world (files : list (string * result Frame))
    (listing : list string) (delays : nat -> result float64) : World :=
  {| use_s3 := false;
     refresh_interval := 1;
     delay_threshold := 60;
     secrets := fun _ => None;
     artifacts_dir := "/app/artifacts";
     glob := fun _ => listing;
     path_exists := fun p => match assoc p files with Some _ => true | None => false end;
     read_csv_path := fun p =>
       match assoc p files with
       | Some r => r
       | None => Raise (OtherError "FileNotFoundError")
       end;
     boto3_client := fun _ _ => Raise (OtherError "NoCredentialsError");
     list_objects_v2 := fun _ _ => Raise (OtherError "NoCredentialsError");
     get_object := fun _ _ => Raise (OtherError "NoCredentialsError");
     read_csv_bytes := fun _ => Raise (OtherError "EmptyDataError");
     to_datetime := example_to_datetime;
     series_min := example_extreme;
     series_max := example_extreme;
     delay_seconds := fun i _ _ => delays i |}.

(** A remote-mode world: [objects] are the bodies stored in bucket
    ["telemetry"], [parsed] what [pd.read_csv] makes of a body, [listing]
    the keys [list_objects_v2] returns. *)
Definition s3_world (objects : list (string * string))
    (parsed : list (string * Frame)) (listing : list string)
    (delays : nat -> result float64) : World :=
  {| use_s3 := true;
     refresh_interval := 1;
     delay_threshold := 60;
     secrets := fun k =>
       assoc k [("S3_BUCKET_NAME", "telemetry"); ("S3_KEY", "AKIA");
                ("S3_SECRET", "secret")];
     artifacts_dir := "/app/artifacts";
     glob := fun _ => [];
     path_exists := fun _ => false;
     read_csv_path := fun _ => Raise (OtherError "FileNotFoundError");
     boto3_client := fun _ _ => Ok tt;
     list_objects_v2 := fun _ _ => Ok listing;
     get_object := fun _ key =>
       match assoc key objects with
       | Some body => Ok body
       | None => Raise (ClientError "NoSuchKey")
       end;
     read_csv_bytes := fun body =>
       match assoc body parsed with
       | Some df => Ok df
       | None => Raise (OtherError "ParserError")
       end;
     to_datetime := example_to_datetime;
     series_min := example_extreme;
     series_max := example_extreme;
     delay_seconds := fun i _ _ => delays i |}.

(** One sample row [time=2024-01-01T00:00:00, freq, freq_filtered]. *)
Definition sample_frame (freq freq_filtered : Z) : Frame :=
  {| columns := ["time"; "freq"; "freq_filtered"];
     rows := [[CStr "2024-01-01T00:00:00"; CNum (float_of_Z freq);
               CNum (float_of_Z freq_filtered)]] |}.

(** Bounds [min_freq=90, max_freq=110, timezone=UTC]. *)
Definition bounds_frame : Frame :=
  {| columns := ["min_freq"; "max_freq"; "timezone"];
     rows := [[CNum (float_of_Z 90); CNum (float_of_Z 110); CStr "UTC"]] |}.

(** A bounds file that holds its header line only. *)
Definition bounds_header_only : Frame :=
  {| columns := ["min_freq"; "max_freq"; "timezone"]; rows := [] |}.

Definition data_path (n : string) : string :=
  ("/app/artifacts/recent_data/recent_data_device_" ++ n ++ ".csv")%string.

Definition bounds_path (n : string) : string :=
  ("/app/artifacts/recent_data/freq_bounds_device_" ++ n ++ ".csv")%string.

Definition thirty_seconds (i : nat) : result float64 := Ok (float_of_Z 30).

(** Device 1 reports 98 RPM inside [90, 110], thirty seconds ago. *)
Definition world_in_bounds : World :=
  local_world [(data_path "1", Ok (sample_frame 100 98));
               (bounds_path "1", Ok bounds_frame)]
              [data_path "1"] thirty_seconds.

(** Device 1 has samples and no bounds file. *)
Definition world_no_bounds : World :=
  local_world [(data_path "1", Ok (sample_frame 100 98))]
              [data_path "1"] thirty_seconds.

(** Device 1 has samples and a bounds file without a data row. *)
Definition world_empty_bounds : World :=
  local_world [(data_path "1", Ok (sample_frame 100 98));
               (bounds_path "1", Ok bounds_header_only)]
              [data_path "1"] thirty_seconds.

(** Devices 1, 2 and 3: the first is fine, the second is out of range,
    the third is both out of range and stale. *)
Definition world_two_alerts : World :=
  local_world [(data_path "1", Ok (sample_frame 100 98));
               (bounds_path "1", Ok bounds_frame);
               (data_path "2", Ok (sample_frame 120 118));
               (bounds_path "2", Ok bounds_frame);
               (data_path "3", Ok (sample_frame 80 82));
               (bounds_path "3", Ok bounds_frame)]
              [data_path "1"; data_path "2"; data_path "3"]
              (fun i => if Nat.eqb i 2 then Ok (float_of_Z 61)
                        else Ok (float_of_Z 30)).

(** No sample file at all. *)
Definition world_no_devices : World := local_world [] [] thirty_seconds.

(** Device 3 was listed, then its sample file went away; its bounds file
    is still there. *)
Definition world_data_gone : World :=
  local_world [(bounds_path "3", Ok bounds_frame)]
              [data_path "3"] thirty_seconds.

(** The listing returns device 10 before device 2. *)
Definition world_10_before_2 : World :=
  local_world [(data_path "10", Ok (sample_frame 100 98));
               (bounds_path "10", Ok bounds_frame);
               (data_path "2", Ok (sample_frame 100 98));
               (bounds_path "2", Ok bounds_frame)]
              [data_path "10"; data_path "2"] thirty_seconds.

(** A stray file [recent_data_device_old.csv] beside device 1's. *)
Definition world_stray_file : World :=
  local_world [(data_path "1", Ok (sample_frame 100 98));
               (bounds_path "1", Ok bounds_frame);
               (data_path "old", Ok (sample_frame 100 98))]
              [data_path "1"; data_path "old"] thirty_seconds.

(** The same two objects in the bucket. *)
Definition world_s3_stray_key : World :=
  s3_world [("recent_data/recent_data_device_1.csv", "samples");
            ("recent_data/recent_data_device_old.csv", "samples")]
           [("samples", sample_frame 100 98)]
           ["recent_data/recent_data_device_1.csv";
            "recent_data/recent_data_device_old.csv"] thirty_seconds.

(** Device 1's sample object is fine; its bounds object is there and does
    not parse. *)
Definition world_s3_bad_bounds : World :=
  s3_world [("recent_data/recent_data_device_1.csv", "samples");
            ("recent_data/freq_bounds_device_1.csv", "garbled")]
           [("samples", sample_frame 100 98)]
           ["recent_data/recent_data_device_1.csv"] thirty_seconds.

(** Device 1's sample object is fine; it has no bounds object. *)
Definition world_s3_no_bounds : World :=
  s3_world [("recent_data/recent_data_device_1.csv", "samples")]
           [("samples", sample_frame 100 98)]
           ["recent_data/recent_data_device_1.csv"] thirty_seconds.

(** ** Reading a page and a run *)

Definition trace_of {A : Type} (x : list event * State * result A)
    : list event := fst (fst x).

Definition state_of {A : Type} (x : list event * State * result A) : State :=
  snd (fst x).

Definition result_of {A : Type} (x : list event * State * result A)
    : result A := snd x.

(** The looping audio cue was started. *)
Definition is_audio (ev : event) : bool :=
  match snd ev with
  | StAudio _ _ _ => true
  | _ => false
  end.

(** One of the two alert banners. *)
Definition is_alert_banner (ev : event) : bool :=
  match snd ev with
  | StError MsgFreqOutOfBounds => true
  | StError (MsgDelayExceeds _ _) => true
  | _ => false
  end.

Definition is_freq_banner (ev : event) : bool :=
  match snd ev with
  | StError MsgFreqOutOfBounds => true
  | _ => false
  end.

Definition is_delay_banner (ev : event) : bool :=
  match snd ev with
  | StError (MsgDelayExceeds _ _) => true
  | _ => false
  end.

Definition is_warning (ev : event) : bool :=
  match snd ev with
  | StWarning _ => true
  | _ => false
  end.

Definition is_sleep (ev : event) : bool :=
  match snd ev with
  | TimeSleep _ => true
  | _ => false
  end.

Definition is_metric (ev : event) : bool :=
  match snd ev with
  | StMetric _ _ => true
  | _ => false
  end.

Definition is_chart (ev : event) : bool :=
  match snd ev with
  | StPlotlyChart _ => true
  | _ => false
  end.

Definition is_success (ev : event) : bool :=
  match snd ev with
  | StSuccess _ => true
  | _ => false
  end.

(** What a device's column shows when the device is processed to the
    end: metrics, banners, the cue, the chart. *)
Definition is_display (ev : event) : bool :=
  is_metric ev || is_chart ev || is_success ev || is_alert_banner ev
  || is_audio ev.

Definition audios (page : list event) : list event := filter is_audio page.

Definition alert_banners (page : list event) : list event :=
  filter is_alert_banner page.

(** The column a call was placed in. *)
Definition column_of (rg : region) : option nat :=
  match rg with
  | Main => None
  | Col i => Some i
  | Sub i _ => Some i
  end.

(** The device a call names in its text. *)
Definition device_named (u : ui) : option Z :=
  match u with
  | StError (MsgProcessingData n _) => Some n
  | StError (MsgProcessingDevice n _) => Some n
  | StWarning (MsgNoValidData n) => Some n
  | StMetric (LblCurrentFrequency n) _ => Some n
  | StPlotlyChart fig => Some (fig_title_device fig)
  | _ => None
  end.

(** Column and device of a call made inside a device's column. *)
Definition tag (ev : event) : option (nat * Z) :=
  match column_of (fst ev), device_named (snd ev) with
  | Some i, Some n => Some (i, n)
  | _, _ => None
  end.

Fixpoint tags (page : list event) : list (nat * Z) :=
  match page with
  | [] => []
  | ev :: page' =>
      match tag ev with
      | Some t => t :: tags page'
      | None => tags page'
      end
  end.

Definition same_tag (a b : nat * Z) : bool :=
  Nat.eqb (fst a) (fst b) && Z.eqb (snd a) (snd b).

(** Drops the repetitions of [prev] at the head, then goes on. *)
Fixpoint squash_after (prev : nat * Z) (l : list (nat * Z))
    : list (nat * Z) :=
  match l with
  | [] => []
  | x :: l' =>
      if same_tag prev x then squash_after prev l'
      else x :: squash_after x l'
  end.

Definition squash (l : list (nat * Z)) : list (nat * Z) :=
  match l with
  | [] => []
  | x :: l' => x :: squash_after x l'
  end.

(** The device columns of a page, left to right: (column, device), one
    entry per column that shows something. *)
Definition rendered_devices (page : list event) : list (nat * Z) :=
  squash (tags page).

(** [enumerate(xs)] counting from [i]. *)
Fixpoint enumerate_from {A : Type} (i : nat) (xs : list A) : list (nat * A) :=
  match xs with
  | [] => []
  | x :: xs' => (i, x) :: enumerate_from (S i) xs'
  end.

(** [device_numbers] as the script computes it (lines 22-24 and 199-216),
    or the exception that aborts the run. *)
Definition discovered (w : World) : result (list Z) :=
  result_of ((s3_bucket <- read_s3_bucket w ;; discover w s3_bucket) []).

(** The exact value of a finite float, and what [d > t] means for a delay
    [d] and a whole number of seconds [t]. *)
Definition float_exact (x : float64) : option Q :=
  match x with
  | S754_zero _ => Some 0%Q
  | S754_finite s m e => Some (inject_Z (cond_Zopp s (Zpos m)) * 2 ^ e)%Q
  | _ => None
  end.

Definition exceeds (d : float64) (t : Z) : Prop :=
  match d with
  | S754_nan => False
  | S754_infinity s => s = false
  | _ =>
      match float_exact d with
      | Some q => (inject_Z t < q)%Q
      | None => False
      end
  end.

(** ** Properties of a computation *)

(** Every call it makes satisfies [Q]. *)
Definition emits_only {A : Type} (Q : event -> Prop) (m : M A) : Prop :=
  forall st, Forall Q (trace_of (m st)).

(** It leaves [audio_elements] as it found it. *)
Definition keeps_state {A : Type} (m : M A) : Prop :=
  forall st, state_of (m st) = st.

(** It never raises. *)
Definition returns {A : Type} (m : M A) : Prop :=
  forall st, exists a, result_of (m st) = Ok a.

(** A message about loading or listing, shown in the main area. *)
Definition is_notice (ev : event) : Prop :=
  match ev with
  | (Main, StError (MsgS3ClientFailed _))
  | (Main, StError (MsgS3Access _))
  | (Main, StError (MsgS3Load _))
  | (Main, StError (MsgLoad _ _))
  | (Main, StError (MsgS3List _)) => True
  | _ => False
  end.

(** The result, when there is one, satisfies [P]. *)
Definition yields {A : Type} (P : A -> Prop) (m : M A) : Prop :=
  forall st a, result_of (m st) = Ok a -> P a.

(** What [load_data] hands over as the sample window has a ['time'] column
    as long as the frame. *)
Definition well_shaped (d : Data) : Prop :=
  List.length (d_time d) = List.length (rows (d_frame d)).

Definition well_loaded (x : option Data * option Frame) : Prop :=
  match fst x with
  | Some d => well_shaped d
  | None => True
  end.

Definition no_valid_data (i : nat) (n : Z) : event :=
  (Col i, StWarning (MsgNoValidData n)).

Definition processing_error (i : nat) (n : Z) (e : exn) : event :=
  (Col i, StError (MsgProcessingData n e)).

(** The lookup of line 236, [bounds['timezone'].iloc[0]], raises [e]. *)
Definition timezone_lookup_raises (bounds : option Frame) (e : exn) : Prop :=
  getitem_opt bounds "timezone" = Raise e \/
  exists col, getitem_opt bounds "timezone" = Ok col /\
              iloc_first col = Raise e.

(** Fetching or parsing the bounds object of device [n] raises [e]. *)
Definition bounds_object_fault (w : World) (bucket : string) (n : Z)
    (e : exn) : Prop :=
  get_object w bucket (bounds_key n) = Raise e \/
  exists body, get_object w bucket (bounds_key n) = Ok body /\
               read_csv_bytes w body = Raise e.

Definition loop (w : World) (b : string) (ns : list Z) : M unit :=
  for_enumerate (device_region w b) 0 ns.

Definition restart (w : World) : list event :=
  [(Main, TimeSleep (refresh_interval w)); (Main, StRerun)].

(** Neither the cue nor an alert banner. *)
Definition calm (ev : event) : Prop :=
  is_audio ev = false /\ is_alert_banner ev = false.

(** Cue and banners sit in column [i]. *)
Definition alerts_in (i : nat) (ev : event) : Prop :=
  is_audio ev = true \/ is_alert_banner ev = true -> fst ev = Col i.

(** What one device may do to the cue: nothing when it is already running
    or when the device does not alert; start it, once, after showing a
    banner, when it is the first to alert. *)
Definition cue_rel (i : nat) (st : State) (tr : list event) (st' : State)
    : Prop :=
  Forall (alerts_in i) tr /\
  ((st' = st /\ audios tr = [] /\ (st = [] -> alert_banners tr = [])) \/
   (st = [] /\ st' <> [] /\ (exists a, audios tr = [a]) /\
    alert_banners tr <> [])).

Definition cues {A : Type} (i : nat) (m : M A) : Prop :=
  forall st, cue_rel i st (trace_of (m st)) (state_of (m st)).

Definition quiet {A : Type} (m : M A) : Prop :=
  keeps_state m /\ emits_only calm m.

(** What the whole loop does to the cue. *)
Definition loop_rel (st : State) (tr : list event) (st' : State) : Prop :=
  (st <> [] -> st' = st /\ audios tr = []) /\
  (st = [] ->
   (st' = [] /\ audios tr = [] /\ alert_banners tr = []) \/
   (st' <> [] /\
    exists a b rest,
      audios tr = [a] /\ alert_banners tr = b :: rest /\ fst a = fst b)).

(** A call that names no device, or names device [n] in column [i]. *)
Definition tagged_as (i : nat) (n : Z) (ev : event) : Prop :=
  tag ev = None \/ tag ev = Some (i, n).

(** When it returns, it has shown something that names a device. *)
Definition marks {A : Type} (m : M A) : Prop :=
  forall st a, result_of (m st) = Ok a -> tags (trace_of (m st)) <> [].

(** What [list_objects_v2] or [glob] returned to this cycle. *)
Definition listed (w : World) (files : list string) : Prop :=
  if use_s3 w then
    exists bucket, secret w "S3_BUCKET_NAME" = Ok bucket /\
                   list_objects_v2 w bucket listing_prefix = Ok files
  else files = glob w (glob_pattern w).

(** [b[c].iloc[0]]: the field [c] of a bounds record. *)
Definition first_row (b : Frame) (c : string) : result cell :=
  match getitem b c with
  | Ok col => iloc_first col
  | Raise e => Raise e
  end.

(** The cycle slept and asked for a rerun. *)
Definition reaches_restart (w : World) : bool :=
  existsb is_sleep (page_of w) && existsb is_rerun (page_of w).

(** Whatever goes wrong with the bounds object of device [n], the loader
    still hands over the samples, with no bounds. *)
Definition samples_survive (w : World) (bucket : string) (n : Z) : Prop :=
  forall e, bounds_object_fault w bucket n e ->
            exists d, result_of (load_s3_data w bucket n []) = Ok (Some d, None).

(** ** Further definitions for the properties of the loaders, the figure
    and the cycle *)

(** Every character of [s] satisfies [p]. *)
Fixpoint all_chars (p : ascii -> bool) (s : string) : bool :=
  match s with
  | EmptyString => true
  | String c s' => p c && all_chars p s'
  end.

Definition not_char (x : ascii) (c : ascii) : bool := negb (Ascii.eqb c x).

(** It renders nothing when its result satisfies [P]. *)
Definition silent_when {A : Type} (P : A -> Prop) (m : M A) : Prop :=
  forall st a, result_of (m st) = Ok a -> P a -> trace_of (m st) = [].

(** The sample window is there. *)
Definition has_data (x : option Data * option Frame) : Prop := fst x <> None.

(** [pd.to_datetime] on the ['time'] column of [df], as both loaders run
    it. *)
Definition converted (w : World) (df : Frame) : result Data :=
  result_of (convert_time w df []).

(** Fetching, parsing or converting the sample object of device [n]
    raises [e]. *)
Definition sample_object_fault (w : World) (bucket : string) (n : Z)
    (e : exn) : Prop :=
  get_object w bucket (data_key n) = Raise e \/
  exists body,
    get_object w bucket (data_key n) = Ok body /\
    (read_csv_bytes w body = Raise e \/
     exists df, read_csv_bytes w body = Ok df /\ converted w df = Raise e).

(** Reading the sample file of device [n], converting its times or
    reading its bounds file raises [e]. *)
Definition local_file_fault (w : World) (n : Z) (e : exn) : Prop :=
  read_csv_path w (recent_data_file w n) = Raise e \/
  exists df,
    read_csv_path w (recent_data_file w n) = Ok df /\
    (converted w df = Raise e \/
     exists d, converted w df = Ok d /\
               path_exists w (bounds_file w n) = true /\
               read_csv_path w (bounds_file w n) = Raise e).

(** Listing the bucket, or reading a device number off a listed key,
    raises [e]. *)
Definition remote_listing_fault (w : World) (bucket : string) (e : exn)
    : Prop :=
  list_objects_v2 w bucket listing_prefix = Raise e \/
  exists keys, list_objects_v2 w bucket listing_prefix = Ok keys /\
               parse_device_numbers keys = Raise e.

(** The message of the outer handler (line 285). *)
Definition is_outer_error (ev : event) : bool :=
  match snd ev with
  | StError (MsgProcessingDevice _ _) => true
  | _ => false
  end.

(** [audio_elements] grows by one entry, the played file, for each cue
    started. *)
Definition tracks {A : Type} (w : World) (m : M A) : Prop :=
  forall st,
    state_of (m st)
    = st ++ repeat (warning_wav w) (List.length (audios (trace_of (m st)))).

Definition not_audio (ev : event) : bool := negb (is_audio ev).

(** What it shows, the cue apart, and how it ends do not depend on
    [audio_elements]. *)
Definition steady {A : Type} (m : M A) : Prop :=
  forall st st',
    filter not_audio (trace_of (m st)) = filter not_audio (trace_of (m st')) /\
    result_of (m st) = result_of (m st').

(** The figure [create_plot] returns, or the exception it raises. *)
Definition plotted (w : World) (d : Data) (bounds : option Frame) (n : Z)
    : result Figure :=
  result_of (create_plot w d bounds n []).

(** Lines 234-240 and the format of line 246 go through: the last
    filtered frequency is [current_freq], shown as [shown], and the delay
    is [delay]. *)
Definition reads (w : World) (i : nat) (d : Data) (bounds : option Frame)
    (current_freq : cell) (shown delay : float64) : Prop :=
  exists filtered last_time tz_col timezone,
    getitem (d_frame d) "freq_filtered" = Ok filtered /\
    iloc_last filtered = Ok current_freq /\
    iloc_last (d_time d) = Ok last_time /\
    getitem_opt bounds "timezone" = Ok tz_col /\
    iloc_first tz_col = Ok timezone /\
    delay_seconds w i last_time timezone = Ok delay /\
    format_1f current_freq = Ok shown.

Definition metrics (i : nat) (n : Z) (shown delay : float64) : list event :=
  [(Sub i 0, StMetric (LblCurrentFrequency n) shown);
   (Sub i 1, StMetric LblDelay delay)].

(** The two series of lines 113-129. *)
Definition series_of (d : Data) (freq freq_filtered : list cell)
    : list plot_item :=
  [ Scatter (d_time d) freq "lines+markers" "Raw Frequency" "blue" 1;
    Scatter (d_time d) freq_filtered "lines" "Filtered Frequency" "red" 2 ].

(** The reference lines and bands of lines 137-156. *)
Definition bands (min_freq max_freq lo hi : cell) : list plot_item :=
  [ HLine min_freq "Lower Bound";
    HLine max_freq "Upper Bound";
    HRect min_freq max_freq "lightgreen" "Normal Range";
    HRect lo min_freq "red" "Below Range";
    HRect max_freq hi "red" "Above Range" ].

(** Discovery returned at least one device. *)
Definition finds_devices (w : World) : bool :=
  match discovered w with
  | Ok (_ :: _) => true
  | _ => false
  end.

(** Device 1's sample file is there and does not parse. *)
Definition world_bad_samples : World :=
  local_world [(data_path "1", Raise (OtherError "ParserError"))]
              [data_path "1"] thirty_seconds.

(** Device 1's sample file holds its header line only. *)
Definition world_header_only : World :=
  local_world [(data_path "1",
                Ok {| columns := ["time"; "freq"; "freq_filtered"];
                      rows := [] |});
               (bounds_path "1", Ok bounds_frame)]
              [data_path "1"] thirty_seconds.

(** Device 1 in the bucket, with its bounds object. *)
Definition world_s3_in_bounds : World :=
  s3_world [("recent_data/recent_data_device_1.csv", "samples");
            ("recent_data/freq_bounds_device_1.csv", "bounds")]
           [("samples", sample_frame 100 98); ("bounds", bounds_frame)]
           ["recent_data/recent_data_device_1.csv"] thirty_seconds.

(** Bounds whose [max_freq] is not a number. *)
Definition bounds_text_max : Frame :=
  {| columns := ["min_freq"; "max_freq"; "timezone"];
     rows := [[CNum (float_of_Z 90); CStr "abc"; CStr "UTC"]] |}.

(** The sample window of [sample_frame freq freq_filtered], loaded. *)
Definition sample_data (freq freq_filtered : Z) : Data :=
  mkData (sample_frame freq freq_filtered) [Some 1704067200000000000].

(** The chart of device 1 in [world_in_bounds]. *)
Definition figure_in_bounds : Figure :=
  mkFigure
    (series_of (sample_data 100 98) [CNum (float_of_Z 100)]
               [CNum (float_of_Z 98)]
       ++ bands (CNum (float_of_Z 90)) (CNum (float_of_Z 110))
                (CNum (float_of_Z 98)) (CNum (float_of_Z 98)))
    1 None.

(** The call of lines 267-268 made in column [i]: [warning.wav] of the
    artifacts directory, with [autoplay=True] and [loop=True]. *)
Definition warning_loop (w : World) (i : nat) : event :=
  (Col i, StAudio (path_join (artifacts_dir w) "warning.wav") true true).

(** * Proofs *)

(** * Running the monad *)

Section Runs.
Context {A B : Type}.

Lemma run_bind (m : M A) (k : A -> M B) (st : State) :
  bind m k st =
  match result_of (m st) with
  | Ok a =>
      (trace_of (m st) ++ trace_of (k a (state_of (m st))),
       state_of (k a (state_of (m st))),
       result_of (k a (state_of (m st))))
  | Raise e => (trace_of (m st), state_of (m st), Raise e)
  end.
Proof.
  unfold bind, trace_of, state_of, result_of.
  destruct (m st) as [[tr st'] [a|e]]; simpl; [|reflexivity].
  destruct (k a st') as [[tr' st''] r]; reflexivity.
Qed.

Lemma run_try (m : M A) (c : exn -> bool) (h : exn -> M A) (st : State) :
  try_except m c h st =
  match result_of (m st) with
  | Ok a => m st
  | Raise e =>
      if c e then
        (trace_of (m st) ++ trace_of (h e (state_of (m st))),
         state_of (h e (state_of (m st))),
         result_of (h e (state_of (m st))))
      else m st
  end.
Proof.
  unfold try_except, trace_of, state_of, result_of.
  destruct (m st) as [[tr st'] [a|e]]; simpl; [reflexivity|].
  destruct (c e); [|reflexivity].
  destruct (h e st') as [[tr' st''] r]; reflexivity.
Qed.
End Runs.

Section Closure.
Context {A B : Type}.
Variable Q : event -> Prop.

Lemma emits_only_bind (m : M A) (k : A -> M B) :
  emits_only Q m -> (forall a, emits_only Q (k a)) ->
  emits_only Q (bind m k).
Proof.
  intros Hm Hk st. rewrite run_bind. specialize (Hm st).
  destruct (result_of (m st)); simpl; [|exact Hm].
  apply Forall_app. split; [exact Hm | apply Hk].
Qed.

Lemma emits_only_try (m : M A) (c : exn -> bool) (h : exn -> M A) :
  emits_only Q m -> (forall e, emits_only Q (h e)) ->
  emits_only Q (try_except m c h).
Proof.
  intros Hm Hh st. rewrite run_try. specialize (Hm st).
  destruct (result_of (m st)) as [a|e]; [exact Hm|].
  destruct (c e); [|exact Hm].
  apply Forall_app. split; [exact Hm | apply Hh].
Qed.

Lemma emits_only_lift (r : result A) : emits_only Q (lift r).
Proof. intro st. constructor. Qed.

Lemma emits_only_ret (a : A) : emits_only Q (ret a).
Proof. intro st. constructor. Qed.

Lemma emits_only_raise (e : exn) : emits_only Q (@raise A e).
Proof. intro st. constructor. Qed.

Lemma emits_only_emit (rg : region) (u : ui) :
  Q (rg, u) -> emits_only Q (emit rg u).
Proof. intros H st. constructor; [exact H | constructor]. Qed.

Lemma keeps_state_bind (m : M A) (k : A -> M B) :
  keeps_state m -> (forall a, keeps_state (k a)) -> keeps_state (bind m k).
Proof.
  intros Hm Hk st. rewrite run_bind. specialize (Hm st).
  destruct (result_of (m st)); simpl; [|exact Hm].
  unfold state_of at 1. simpl. rewrite Hk. exact Hm.
Qed.

Lemma keeps_state_try (m : M A) (c : exn -> bool) (h : exn -> M A) :
  keeps_state m -> (forall e, keeps_state (h e)) ->
  keeps_state (try_except m c h).
Proof.
  intros Hm Hh st. rewrite run_try. specialize (Hm st).
  destruct (result_of (m st)) as [a|e]; [exact Hm|].
  destruct (c e); [|exact Hm].
  unfold state_of at 1. simpl. rewrite Hh. exact Hm.
Qed.

Lemma keeps_state_lift (r : result A) : keeps_state (lift r).
Proof. intro st. reflexivity. Qed.

Lemma keeps_state_ret (a : A) : keeps_state (ret a).
Proof. intro st. reflexivity. Qed.

Lemma keeps_state_raise (e : exn) : keeps_state (@raise A e).
Proof. intro st. reflexivity. Qed.

Lemma keeps_state_emit (rg : region) (u : ui) : keeps_state (emit rg u).
Proof. intro st. reflexivity. Qed.

Lemma returns_bind (m : M A) (k : A -> M B) :
  returns m -> (forall a, returns (k a)) -> returns (bind m k).
Proof.
  intros Hm Hk st. rewrite run_bind. destruct (Hm st) as [a Ha].
  rewrite Ha. apply Hk.
Qed.

Lemma returns_try_any (m : M A) (h : exn -> M A) :
  (forall e, returns (h e)) -> returns (try_except m any_exception h).
Proof.
  intros Hh st. rewrite run_try.
  destruct (result_of (m st)) as [a|e] eqn:E.
  - exists a. exact E.
  - simpl. apply Hh.
Qed.

Lemma returns_ret (a : A) : returns (ret a).
Proof. intro st. exists a. reflexivity. Qed.

Lemma returns_emit (rg : region) (u : ui) : returns (emit rg u).
Proof. intro st. exists tt. reflexivity. Qed.
End Closure.

Lemma emits_only_weaken {A : Type} (P Q : event -> Prop) (m : M A) :
  (forall ev, P ev -> Q ev) -> emits_only P m -> emits_only Q m.
Proof. intros H Hm st. eapply Forall_impl; [exact H | apply Hm]. Qed.

Ltac split_match :=
  match goal with
  | |- _ _ (match ?x with _ => _ end) => destruct x
  | |- _ (match ?x with _ => _ end) => destruct x
  end.

Ltac emits :=
  repeat first
    [ apply emits_only_bind; [|intro]
    | apply emits_only_try; [|intro]
    | apply emits_only_lift
    | apply emits_only_ret
    | apply emits_only_raise
    | apply emits_only_emit; exact I
    | split_match ].

Ltac keeps :=
  repeat first
    [ apply keeps_state_bind; [|intro]
    | apply keeps_state_try; [|intro]
    | apply keeps_state_lift
    | apply keeps_state_ret
    | apply keeps_state_raise
    | apply keeps_state_emit
    | split_match ].

Lemma get_s3_client_notices (w : World) :
  emits_only is_notice (get_s3_client w).
Proof. unfold get_s3_client. emits. Qed.

Lemma get_s3_client_keeps (w : World) : keeps_state (get_s3_client w).
Proof. unfold get_s3_client. keeps. Qed.

Lemma get_s3_client_returns (w : World) : returns (get_s3_client w).
Proof.
  unfold get_s3_client. apply returns_try_any. intro e.
  apply returns_bind; [apply returns_emit | intro; apply returns_ret].
Qed.

Lemma load_s3_data_notices (w : World) (b : string) (n : Z) :
  emits_only is_notice (load_s3_data w b n).
Proof.
  unfold load_s3_data, convert_time.
  apply emits_only_bind; [apply get_s3_client_notices | intro].
  emits.
Qed.

Lemma load_data_notices (w : World) (b : string) (n : Z) :
  emits_only is_notice (load_data w b n).
Proof.
  unfold load_data. destruct (use_s3 w); [apply load_s3_data_notices|].
  unfold convert_time. emits.
Qed.

Lemma load_data_keeps (w : World) (b : string) (n : Z) :
  keeps_state (load_data w b n).
Proof.
  unfold load_data, load_s3_data, get_s3_client, convert_time. keeps.
Qed.

Lemma load_data_returns (w : World) (b : string) (n : Z) :
  returns (load_data w b n).
Proof.
  unfold load_data, load_s3_data.
  destruct (use_s3 w).
  - apply returns_bind; [apply get_s3_client_returns | intros [u|]].
    + apply returns_try_any. intro e.
      apply returns_bind; [apply returns_emit | intro; apply returns_ret].
    + apply returns_ret.
  - apply returns_try_any. intro e.
    apply returns_bind; [apply returns_emit | intro; apply returns_ret].
Qed.

(** * Stepping through a computation *)

Lemma bind_lift {A B : Type} (r : result A) (k : A -> M B) (st : State) :
  bind (lift r) k st =
  match r with
  | Ok a => k a st
  | Raise e => ([], st, Raise e)
  end.
Proof.
  unfold bind, lift. destruct r as [a|e]; [|reflexivity].
  destruct (k a st) as [[tr st'] r]; reflexivity.
Qed.

Lemma bind_emit {B : Type} (rg : region) (u : ui) (k : unit -> M B)
    (st : State) :
  bind (emit rg u) k st =
  ((rg, u) :: trace_of (k tt st), state_of (k tt st), result_of (k tt st)).
Proof.
  unfold bind, emit, trace_of, state_of, result_of.
  destruct (k tt st) as [[tr st'] r]; reflexivity.
Qed.

Lemma bind_ret {A B : Type} (a : A) (k : A -> M B) (st : State) :
  bind (ret a) k st = k a st.
Proof.
  unfold bind, ret. destruct (k a st) as [[tr st'] r]; reflexivity.
Qed.

Lemma run_eta {A : Type} (x : list event * State * result A) :
  x = (trace_of x, state_of x, result_of x).
Proof. destruct x as [[tr st] r]; reflexivity. Qed.

Section Yields.
Context {A B : Type}.

Lemma yields_bind (P : B -> Prop) (m : M A) (k : A -> M B) :
  (forall a, yields P (k a)) -> yields P (bind m k).
Proof.
  intros Hk st b. rewrite run_bind.
  destruct (result_of (m st)) as [a|e]; simpl; [apply Hk | discriminate].
Qed.

Lemma yields_bind_with (Q : A -> Prop) (P : B -> Prop) (m : M A)
    (k : A -> M B) :
  yields Q m -> (forall a, Q a -> yields P (k a)) -> yields P (bind m k).
Proof.
  intros Hm Hk st b. rewrite run_bind.
  destruct (result_of (m st)) as [a|e] eqn:E; simpl; [|discriminate].
  apply Hk. apply (Hm st). exact E.
Qed.

Lemma yields_try (P : A -> Prop) (m : M A) (c : exn -> bool)
    (h : exn -> M A) :
  yields P m -> (forall e, yields P (h e)) -> yields P (try_except m c h).
Proof.
  intros Hm Hh st a. rewrite run_try.
  destruct (result_of (m st)) as [a'|e] eqn:E.
  - intro H. apply (Hm st). exact H.
  - destruct (c e); [apply Hh | rewrite E; discriminate].
Qed.

Lemma yields_ret (P : A -> Prop) (a : A) : P a -> yields P (ret a).
Proof. intros H st a' E. injection E as <-. exact H. Qed.

Lemma yields_raise (P : A -> Prop) (e : exn) : yields P (@raise A e).
Proof. intros st a E. discriminate. Qed.
End Yields.

Lemma convert_time_shape (w : World) (df : Frame) :
  yields well_shaped (convert_time w df).
Proof.
  unfold convert_time.
  apply yields_bind; intro col. apply yields_bind; intro ts.
  destruct (Nat.eqb_spec (List.length ts) (List.length (rows df))) as [E|E].
  - apply yields_ret. exact E.
  - apply yields_raise.
Qed.

Lemma load_data_shape (w : World) (b : string) (n : Z) :
  yields well_loaded (load_data w b n).
Proof.
  unfold load_data, load_s3_data.
  destruct (use_s3 w).
  - apply yields_bind; intros [u|]; [|apply yields_ret; exact I].
    apply yields_try; [apply yields_try|].
    + apply yields_bind; intro body. apply yields_bind; intro df.
      apply (yields_bind_with well_shaped); [apply convert_time_shape|].
      intros d Hd. apply yields_bind; intro bounds.
      apply yields_ret. exact Hd.
    + intro e. destruct (String.eqb _ _); [apply yields_ret; exact I|].
      apply yields_bind; intro. apply yields_ret; exact I.
    + intro e. apply yields_bind; intro. apply yields_ret; exact I.
  - apply yields_try.
    + destruct (negb _); [apply yields_ret; exact I|].
      apply yields_bind; intro df.
      apply (yields_bind_with well_shaped); [apply convert_time_shape|].
      intros d Hd. apply yields_bind; intro bounds.
      apply yields_ret. exact Hd.
    + intro e. apply yields_bind; intro. apply yields_ret; exact I.
Qed.

(** * One turn of the loop *)

Lemma device_region_run (w : World) (b : string) (i : nat) (n : Z)
    (st st' : State) (tr : list event) (data : option Data)
    (bounds : option Frame) :
  load_data w b n st = (tr, st', Ok (data, bounds)) ->
  device_region w b i n st =
  match data with
  | Some d =>
      if has_rows data then
        let x := show_device w i n d bounds st' in
        match result_of x with
        | Ok _ => (tr ++ trace_of x, state_of x, Ok tt)
        | Raise e =>
            (tr ++ trace_of x ++ [processing_error i n e], state_of x, Ok tt)
        end
      else (tr ++ [no_valid_data i n], st', Ok tt)
  | None => (tr ++ [no_valid_data i n], st', Ok tt)
  end.
Proof.
  intro H. unfold device_region, try_except, bind. rewrite H.
  destruct data as [d|]; [|reflexivity].
  destruct (has_rows (Some d)); [|reflexivity].
  unfold any_exception, emit, processing_error, trace_of, state_of, result_of.
  destruct (show_device w i n d bounds st') as [[tr1 st1] [[]|e]]; simpl;
    rewrite ?app_nil_r, ?app_assoc; reflexivity.
Qed.

Lemma iloc_last_cons {A : Type} (x : A) (l : list A) :
  exists y, iloc_last (x :: l) = Ok y.
Proof.
  revert x. induction l as [|z l IH]; intro x.
  - exists x. reflexivity.
  - destruct (IH z) as [y Hy]. exists y. exact Hy.
Qed.

Lemma iloc_last_length {A : Type} (l : list A) :
  (0 < List.length l)%nat -> exists y, iloc_last l = Ok y.
Proof.
  destruct l as [|x l]; simpl; [lia | intros _; apply iloc_last_cons].
Qed.

Lemma has_rows_length (d : Data) :
  has_rows (Some d) = true -> (0 < List.length (rows (d_frame d)))%nat.
Proof.
  unfold has_rows, empty.
  destruct (columns (d_frame d)); [discriminate|].
  destruct (rows (d_frame d)); [discriminate | simpl; lia].
Qed.

Lemma getitem_has_column (df : Frame) (c : string) :
  has_column df c = true ->
  exists col, getitem df c = Ok col /\
              List.length col = List.length (rows df).
Proof.
  unfold has_column, getitem. destruct (index_of c (columns df)) as [k|];
    [|discriminate].
  intros _. eexists. split; [reflexivity | apply length_map].
Qed.

Lemma show_device_stops (w : World) (i : nat) (n : Z) (d : Data)
    (bounds : option Frame) (st : State) (e0 : exn) :
  timezone_lookup_raises bounds e0 ->
  exists e,
    show_device w i n d bounds st = ([], st, Raise e) /\
    (well_shaped d -> has_rows (Some d) = true ->
     has_column (d_frame d) "freq_filtered" = true -> e = e0).
Proof.
  intro Htz. unfold show_device.
  rewrite bind_lift.
  destruct (getitem (d_frame d) "freq_filtered") as [col|e1] eqn:E1.
  2:{ exists e1. split; [reflexivity|]. intros _ _ Hc.
      apply getitem_has_column in Hc. destruct Hc as [col [Hc _]].
      congruence. }
  rewrite bind_lift.
  destruct (iloc_last col) as [current_freq|e2] eqn:E2.
  2:{ exists e2. split; [reflexivity|]. intros _ Hr Hc.
      apply getitem_has_column in Hc. destruct Hc as [col' [Hc Hlen]].
      assert (col' = col) by congruence. subst col'.
      apply has_rows_length in Hr. rewrite <- Hlen in Hr.
      apply iloc_last_length in Hr. destruct Hr as [y Hy]. congruence. }
  rewrite bind_lift.
  destruct (iloc_last (d_time d)) as [last_time|e3] eqn:E3.
  2:{ exists e3. split; [reflexivity|]. intros Hs Hr _.
      apply has_rows_length in Hr. rewrite <- Hs in Hr.
      apply iloc_last_length in Hr. destruct Hr as [y Hy]. congruence. }
  rewrite bind_lift. exists e0.
  destruct Htz as [Htz | [tz [Htz Hfirst]]]; rewrite Htz.
  - split; [reflexivity | tauto].
  - rewrite bind_lift, Hfirst. split; [reflexivity | tauto].
Qed.

Lemma error_region_displays_nothing (tr : list event) (i : nat) (n : Z)
    (e : exn) :
  Forall is_notice tr ->
  filter is_display (tr ++ [processing_error i n e]) = [].
Proof.
  intro H. rewrite filter_app. simpl. rewrite app_nil_r.
  induction H as [|ev tr Hev _ IH]; [reflexivity|].
  destruct ev as [[| |] [[]| | | | | | |]]; simpl in Hev; try contradiction;
    simpl; exact IH.
Qed.

(** C1, as the code has it.  For a device whose sample window is present
    and non-empty and whose bounds record is absent, the lookup
    [bounds['timezone']] of line 236 raises before any metric is shown:
    the device's column holds the inline error alone -- no alert banner
    and no audio cue, and no current frequency, delay or chart either. *)
Theorem missing_bounds_shows_no_metrics (w : World) (b : string) (i : nat)
    (n : Z) (st st' : State) (tr : list event) (d : Data) :
  load_data w b n st = (tr, st', Ok (Some d, None)) ->
  has_rows (Some d) = true ->
  filter is_display (trace_of (device_region w b i n st)) = [] /\
  exists e,
    device_region w b i n st = (tr ++ [processing_error i n e], st', Ok tt) /\
    (has_column (d_frame d) "freq_filtered" = true -> e = TypeError).
Proof.
  intros Hload Hrows.
  assert (Hn : Forall is_notice tr).
  { pose proof (load_data_notices w b n st) as Hn. rewrite Hload in Hn.
    exact Hn. }
  cut (exists e,
         device_region w b i n st
         = (tr ++ [processing_error i n e], st', Ok tt) /\
         (has_column (d_frame d) "freq_filtered" = true -> e = TypeError)).
  { intros [e [Hrun He]]. split; [|exists e; split; assumption].
    rewrite Hrun. apply error_region_displays_nothing. exact Hn. }
  rewrite (device_region_run _ _ _ _ _ _ _ _ _ Hload), Hrows.
  destruct (show_device_stops w i n d None st' TypeError) as [e [Hrun He]].
  { left. reflexivity. }
  exists e. cbv zeta. rewrite Hrun. split; [reflexivity|].
  intro Hc. apply He; [|exact Hrows|exact Hc].
  pose proof (load_data_shape w b n st (Some d, None)) as Hs.
  rewrite Hload in Hs. exact (Hs eq_refl).
Qed.

(** C10.  For a device whose sample window is present and non-empty and
    whose bounds record is present with zero rows, the first-row lookup of
    the timezone raises ([IndexError], or [KeyError] when the column is
    missing too): the device's column holds the inline error alone, with
    no metrics, no banners and no chart. *)
Theorem empty_bounds_is_an_error (w : World) (b : string) (i : nat) (n : Z)
    (st st' : State) (tr : list event) (d : Data) (bounds : Frame) :
  load_data w b n st = (tr, st', Ok (Some d, Some bounds)) ->
  has_rows (Some d) = true ->
  rows bounds = [] ->
  filter is_display (trace_of (device_region w b i n st)) = [] /\
  exists e,
    device_region w b i n st = (tr ++ [processing_error i n e], st', Ok tt) /\
    (has_column (d_frame d) "freq_filtered" = true ->
     e = if has_column bounds "timezone" then IndexError
         else KeyError "timezone").
Proof.
  intros Hload Hrows Hempty.
  assert (Hn : Forall is_notice tr).
  { pose proof (load_data_notices w b n st) as Hn. rewrite Hload in Hn.
    exact Hn. }
  cut (exists e,
         device_region w b i n st
         = (tr ++ [processing_error i n e], st', Ok tt) /\
         (has_column (d_frame d) "freq_filtered" = true ->
          e = if has_column bounds "timezone" then IndexError
              else KeyError "timezone")).
  { intros [e [Hrun He]]. split; [|exists e; split; assumption].
    rewrite Hrun. apply error_region_displays_nothing. exact Hn. }
  rewrite (device_region_run _ _ _ _ _ _ _ _ _ Hload), Hrows.
  set (e0 := if has_column bounds "timezone" then IndexError
             else KeyError "timezone").
  destruct (show_device_stops w i n d (Some bounds) st' e0) as [e [Hrun He]].
  { unfold timezone_lookup_raises, e0, has_column. simpl. unfold getitem.
    destruct (index_of "timezone" (columns bounds)).
    - right. eexists. split; [reflexivity|]. rewrite Hempty. reflexivity.
    - left. reflexivity. }
  exists e. cbv zeta. rewrite Hrun. split; [reflexivity|].
  intro Hc. apply He; [|exact Hrows|exact Hc].
  pose proof (load_data_shape w b n st (Some d, Some bounds)) as Hs.
  rewrite Hload in Hs. exact (Hs eq_refl).
Qed.

(** * Loading *)

(** C6, amended.  In local mode, when a device's sample file is absent,
    the adapter returns (absent, absent) whether or not a bounds file
    exists, and the loop shows the "No valid data available" warning for
    that device and nothing else. *)
Theorem absent_sample_file_gives_nothing (w : World) (b : string) (i : nat)
    (n : Z) (st : State) :
  use_s3 w = false ->
  path_exists w (recent_data_file w n) = false ->
  load_data w b n st = ([], st, Ok (None, None)) /\
  device_region w b i n st = ([no_valid_data i n], st, Ok tt).
Proof.
  intros Hlocal Habsent.
  assert (Hload : load_data w b n st = ([], st, Ok (None, None))).
  { unfold load_data, try_except. rewrite Hlocal.
    rewrite Habsent. reflexivity. }
  split; [exact Hload|].
  rewrite (device_region_run _ _ _ _ _ _ _ _ _ Hload). reflexivity.
Qed.

Lemma absent_sample_file_gives_nothing_example :
  load_data world_data_gone "" 3 [] = ([], [], Ok (None, None)) /\
  device_region world_data_gone "" 0 3 [] = ([no_valid_data 0 3], [], Ok tt).
Proof.
  apply (absent_sample_file_gives_nothing world_data_gone "" 0 3 []);
    reflexivity.
Defined.

(** Device 3's sample file is absent and its bounds file is present and
    parses: the adapter does not return (absent, those bounds). *)
Lemma absent_sample_file_drops_bounds :
  path_exists world_data_gone (recent_data_file world_data_gone 3) = false /\
  path_exists world_data_gone (bounds_file world_data_gone 3) = true /\
  read_csv_path world_data_gone (bounds_file world_data_gone 3)
    = Ok bounds_frame /\
  result_of (load_data world_data_gone "" 3 []) <> Ok (None, Some bounds_frame).
Proof.
  repeat split; try reflexivity.
  vm_compute. discriminate.
Qed.

(** C9, amended.  In remote mode, once the sample object has been fetched
    and parsed, a fault on the bounds object that is a [ClientError]
    yields (the sample data, absent bounds), silently; any other fault on
    it, a parse error among them, is caught by the outer handler: it
    yields (absent, absent) and an "Error loading S3 data" message. *)
Theorem bounds_fault_in_remote_mode (w : World) (b : string) (n : Z)
    (st : State) (body : string) (df : Frame) (data : Data) (e : exn) :
  get_s3_client w st = ([], st, Ok (Some tt)) ->
  get_object w b (data_key n) = Ok body ->
  read_csv_bytes w body = Ok df ->
  convert_time w df st = ([], st, Ok data) ->
  bounds_object_fault w b n e ->
  load_s3_data w b n st =
  if is_ClientError e then ([], st, Ok (Some data, None))
  else ([(Main, StError (MsgS3Load e))], st, Ok (None, None)).
Proof.
  intros Hclient Hget Hparse Htime Hfault.
  unfold load_s3_data. unfold bind at 1. rewrite Hclient.
  unfold try_except at 1 2. rewrite bind_lift, Hget, bind_lift, Hparse.
  unfold bind at 1. rewrite Htime.
  unfold try_except, bind, lift, ret, emit, any_exception.
  destruct Hfault as [Hf | [bb [Hf Hp]]]; rewrite Hf; [|rewrite Hp];
    destruct e; reflexivity.
Qed.

(** * The cycle *)

Lemma device_region_returns (w : World) (b : string) (i : nat) (n : Z) :
  returns (device_region w b i n).
Proof.
  unfold device_region. apply returns_try_any. intro e. apply returns_emit.
Qed.

Lemma result_unit (x : list event * State * result unit) :
  (exists a, result_of x = Ok a) -> result_of x = Ok tt.
Proof. intros [[] H]. exact H. Qed.

Lemma for_enumerate_returns {A : Type} (body : nat -> A -> M unit)
    (xs : list A) :
  (forall i x, returns (body i x)) ->
  forall i, returns (for_enumerate body i xs).
Proof.
  intro Hbody. induction xs as [|x xs IH]; intro i; simpl.
  - apply returns_ret.
  - apply returns_bind; [apply Hbody | intro; apply IH].
Qed.

Lemma read_s3_bucket_run (w : World) (st : State) :
  exists r, read_s3_bucket w st = ([], st, r).
Proof.
  unfold read_s3_bucket. destruct (use_s3 w); eexists; reflexivity.
Qed.

Lemma discover_notices (w : World) (b : string) :
  emits_only is_notice (discover w b).
Proof.
  unfold discover. destruct (use_s3 w); [|apply emits_only_lift].
  apply emits_only_bind; [apply get_s3_client_notices | intro].
  emits.
Qed.

Lemma discover_keeps (w : World) (b : string) : keeps_state (discover w b).
Proof. unfold discover, get_s3_client. keeps. Qed.

(** How a cycle unfolds once discovery has returned. *)
Lemma script_run (w : World) (ns : list Z) :
  discovered w = Ok ns ->
  exists b notices,
    Forall is_notice notices /\
    script w [] =
    match ns with
    | [] => (notices ++ [(Main, StWarning MsgNoDevices)], [], Ok tt)
    | _ :: _ =>
        (notices ++ trace_of (loop w b ns []) ++ restart w,
         state_of (loop w b ns []), Ok tt)
    end.
Proof.
  unfold discovered, script. intro H.
  destruct (read_s3_bucket_run w []) as [rb Hb].
  unfold bind at 1 in H. unfold bind at 1. rewrite Hb in H |- *.
  destruct rb as [b|e]; [|discriminate H].
  exists b, (trace_of (discover w b [])).
  split; [apply discover_notices|].
  pose proof (discover_keeps w b []) as Hk.
  unfold bind at 1. 
  destruct (discover w b []) as [[tr0 st0] r0].
  unfold result_of, state_of, trace_of in H, Hk |- *. simpl in H, Hk |- *.
  subst r0 st0.
  destruct ns as [|n ns]; [reflexivity|].
  change (for_enumerate (device_region w b) 0 (n :: ns))
    with (loop w b (n :: ns)).
  assert (Hret : result_of (loop w b (n :: ns) []) = Ok tt).
  { apply result_unit. apply for_enumerate_returns.
    intros. apply device_region_returns. }
  unfold set_audio_elements, bind, emit, restart, result_of in *.
  destruct (loop w b (n :: ns) []) as [[tr st] r]. simpl in *. subst r.
  reflexivity.
Qed.

Lemma script_aborts (w : World) (e : exn) :
  discovered w = Raise e ->
  exists notices, Forall is_notice notices /\
                  script w [] = (notices, [], Raise e).
Proof.
  unfold discovered, script. intro H.
  destruct (read_s3_bucket_run w []) as [rb Hb].
  unfold bind at 1 in H. unfold bind at 1. rewrite Hb in H |- *.
  destruct rb as [b|e'].
  - exists (trace_of (discover w b [])).
    split; [apply discover_notices|].
    pose proof (discover_keeps w b []) as Hk.
    unfold bind at 1.
    destruct (discover w b []) as [[tr0 st0] r0].
    unfold result_of, state_of, trace_of in H, Hk |- *. simpl in H, Hk |- *.
    subst r0 st0. reflexivity.
  - exists []. split; [constructor|].
    unfold result_of in H. simpl in H |- *. injection H as ->. reflexivity.
Qed.

Lemma notices_do_not_restart (l : list event) :
  Forall is_notice l ->
  existsb is_sleep l = false /\ existsb is_rerun l = false /\
  filter is_warning l = [].
Proof.
  induction 1 as [|ev l Hev _ [IH1 [IH2 IH3]]]; [repeat split|].
  destruct ev as [[| |] [[]| | | | | | |]]; simpl in Hev; try contradiction;
    simpl; repeat split; assumption.
Qed.

(** C5, amended.  A cycle whose discovery returns a non-empty device set
    reaches the sleep-and-rerun step, whatever happens to the single
    devices.  A cycle whose discovery returns the empty set shows one
    warning and ends there: it neither sleeps nor asks for a rerun, and
    the dashboard runs no further cycle. *)
Theorem cycle_restarts_when_devices_found (w : World) (ns : list Z)
    (later : list World) :
  discovered w = Ok ns ->
  match ns with
  | _ :: _ =>
      snd (run_cycle w) = Ok tt /\
      (exists shown, page_of w = shown ++ restart w) /\
      dashboard (w :: later) = page_of w :: dashboard later
  | [] =>
      snd (run_cycle w) = Ok tt /\
      (exists notices, Forall is_notice notices /\
         page_of w = notices ++ [(Main, StWarning MsgNoDevices)]) /\
      filter is_warning (page_of w) = [(Main, StWarning MsgNoDevices)] /\
      existsb is_sleep (page_of w) = false /\
      existsb is_rerun (page_of w) = false /\
      dashboard (w :: later) = [page_of w]
  end.
Proof.
  intro H. destruct (script_run w ns H) as [b [notices [Hn Hrun]]].
  unfold dashboard; fold dashboard. unfold page_of, run_cycle.
  rewrite Hrun. destruct ns as [|n ns]; simpl.
  - destruct (notices_do_not_restart notices Hn) as [H1 [H2 H3]].
    rewrite filter_app, !existsb_app, H1, H2, H3. simpl.
    repeat split. exists notices. split; [exact Hn | reflexivity].
  - split; [reflexivity|]. split.
    + exists (notices ++ trace_of (loop w b (n :: ns) [])).
      rewrite <- app_assoc. reflexivity.
    + rewrite !existsb_app. simpl. rewrite !orb_true_r. reflexivity.
Qed.

Lemma cycle_restarts_when_devices_found_example :
  snd (run_cycle world_in_bounds) = Ok tt /\
  (exists shown, page_of world_in_bounds = shown ++ restart world_in_bounds) /\
  dashboard [world_in_bounds; world_no_devices]
    = page_of world_in_bounds :: dashboard [world_no_devices].
Proof.
  apply (cycle_restarts_when_devices_found world_in_bounds [1]
           [world_no_devices]).
  reflexivity.
Defined.

(** With no sample file the cycle shows its warning and stops: no sleep,
    no rerun, and the world of the next cycle is never looked at. *)
Lemma empty_device_set_ends_the_dashboard :
  discovered world_no_devices = Ok [] /\
  page_of world_no_devices = [(Main, StWarning MsgNoDevices)] /\
  reaches_restart world_no_devices = false /\
  dashboard [world_no_devices; world_in_bounds]
    = [[(Main, StWarning MsgNoDevices)]].
Proof. repeat split. Qed.

(** C8, as the code has it.  In local mode the list comprehension of line
    216 runs outside any [try]: a listed file whose device suffix is not
    an integer aborts the run with the [ValueError], before anything is
    shown. *)
Theorem unparsable_name_aborts_local_cycle (w : World) (e : exn) :
  use_s3 w = false ->
  parse_device_numbers (glob w (glob_pattern w)) = Raise e ->
  run_cycle w = ([], Raise e).
Proof.
  intros Hlocal Hparse.
  unfold run_cycle, script, read_s3_bucket, discover. rewrite Hlocal.
  rewrite bind_ret, bind_lift, Hparse. reflexivity.
Qed.

(** * The audio cue *)

Lemma calm_filters (tr : list event) :
  Forall calm tr -> audios tr = [] /\ alert_banners tr = [].
Proof.
  unfold audios, alert_banners.
  induction 1 as [|ev tr [H1 H2] _ [IH1 IH2]]; [split; reflexivity|].
  simpl. rewrite H1, H2. split; assumption.
Qed.

Lemma calm_alerts_in (i : nat) (tr : list event) :
  Forall calm tr -> Forall (alerts_in i) tr.
Proof.
  apply Forall_impl. intros ev [H1 H2] [H|H]; congruence.
Qed.

Lemma cue_rel_calm_l (i : nat) (st : State) (tr1 tr2 : list event)
    (st' : State) :
  Forall calm tr1 -> cue_rel i st tr2 st' -> cue_rel i st (tr1 ++ tr2) st'.
Proof.
  intros Hc [Hin H]. destruct (calm_filters tr1 Hc) as [Ha Hb].
  unfold cue_rel, audios, alert_banners in *.
  rewrite !filter_app, Ha, Hb. simpl.
  split; [apply Forall_app; split; [apply calm_alerts_in|]; assumption|].
  exact H.
Qed.

Lemma cue_rel_calm_r (i : nat) (st : State) (tr1 tr2 : list event)
    (st' : State) :
  Forall calm tr2 -> cue_rel i st tr1 st' -> cue_rel i st (tr1 ++ tr2) st'.
Proof.
  intros Hc [Hin H]. destruct (calm_filters tr2 Hc) as [Ha Hb].
  unfold cue_rel, audios, alert_banners in *.
  rewrite !filter_app, Ha, Hb, !app_nil_r.
  split; [apply Forall_app; split; [|apply calm_alerts_in]; assumption|].
  exact H.
Qed.

Lemma cue_rel_calm (i : nat) (st : State) (tr : list event) :
  Forall calm tr -> cue_rel i st tr st.
Proof.
  intro Hc. destruct (calm_filters tr Hc) as [Ha Hb].
  split; [apply calm_alerts_in; exact Hc|]. left. auto.
Qed.

Section Cues.
Context {A B : Type}.
Variable i : nat.

Lemma cues_quiet (m : M A) : quiet m -> cues i m.
Proof.
  intros [Hk He] st. rewrite Hk. apply cue_rel_calm. apply He.
Qed.

Lemma cues_bind_l (m : M A) (k : A -> M B) :
  quiet m -> (forall a, cues i (k a)) -> cues i (bind m k).
Proof.
  intros [Hk He] Hc st. rewrite run_bind.
  specialize (Hk st). specialize (He st).
  destruct (result_of (m st)) as [a|e].
  - unfold trace_of at 1, state_of at 1. simpl.
    apply cue_rel_calm_l; [exact He|].
    specialize (Hc a (state_of (m st))). rewrite Hk in Hc at 1. exact Hc.
  - unfold trace_of at 1, state_of at 1. simpl. rewrite Hk.
    apply cue_rel_calm. exact He.
Qed.

Lemma cues_bind_r (m : M A) (k : A -> M B) :
  cues i m -> (forall a, quiet (k a)) -> cues i (bind m k).
Proof.
  intros Hc Hq st. rewrite run_bind. specialize (Hc st).
  destruct (result_of (m st)) as [a|e]; [|exact Hc].
  destruct (Hq a) as [Hk He].
  unfold trace_of at 1, state_of at 1. simpl. rewrite Hk.
  apply cue_rel_calm_r; [apply He | exact Hc].
Qed.

Lemma cues_try (m : M A) (c : exn -> bool) (h : exn -> M A) :
  cues i m -> (forall e, quiet (h e)) -> cues i (try_except m c h).
Proof.
  intros Hc Hq st. rewrite run_try. specialize (Hc st).
  destruct (result_of (m st)) as [a|e]; [exact Hc|].
  destruct (c e); [|exact Hc].
  destruct (Hq e) as [Hk He].
  unfold trace_of at 1, state_of at 1. simpl. rewrite Hk.
  apply cue_rel_calm_r; [apply He | exact Hc].
Qed.
End Cues.

Lemma quiet_bind {A B : Type} (m : M A) (k : A -> M B) :
  quiet m -> (forall a, quiet (k a)) -> quiet (bind m k).
Proof.
  intros [H1 H2] Hk. split.
  - apply keeps_state_bind; [exact H1 | intro a; apply Hk].
  - apply emits_only_bind; [exact H2 | intro a; apply Hk].
Qed.

Lemma quiet_try {A : Type} (m : M A) (c : exn -> bool) (h : exn -> M A) :
  quiet m -> (forall e, quiet (h e)) -> quiet (try_except m c h).
Proof.
  intros [H1 H2] Hh. split.
  - apply keeps_state_try; [exact H1 | intro e; apply Hh].
  - apply emits_only_try; [exact H2 | intro e; apply Hh].
Qed.

Lemma quiet_lift {A : Type} (r : result A) : quiet (lift r).
Proof. split; [apply keeps_state_lift | apply emits_only_lift]. Qed.

Lemma quiet_ret {A : Type} (a : A) : quiet (ret a).
Proof. split; [apply keeps_state_ret | apply emits_only_ret]. Qed.

Lemma quiet_raise {A : Type} (e : exn) : quiet (@raise A e).
Proof. split; [apply keeps_state_raise | apply emits_only_raise]. Qed.

Lemma quiet_emit (rg : region) (u : ui) : calm (rg, u) -> quiet (emit rg u).
Proof.
  intro H. split; [apply keeps_state_emit | apply emits_only_emit; exact H].
Qed.

Ltac quiets :=
  repeat first
    [ apply quiet_bind; [|intro]
    | apply quiet_try; [|intro]
    | apply quiet_lift
    | apply quiet_ret
    | apply quiet_raise
    | apply quiet_emit; split; reflexivity
    | split_match ].

Lemma notice_calm (ev : event) : is_notice ev -> calm ev.
Proof.
  destruct ev as [[| |] [[]| | | | | | |]]; simpl; try contradiction;
    intros _; split; reflexivity.
Qed.

Lemma load_data_quiet (w : World) (b : string) (n : Z) :
  quiet (load_data w b n).
Proof.
  split; [apply load_data_keeps|].
  apply (emits_only_weaken is_notice); [exact notice_calm|].
  apply load_data_notices.
Qed.

Lemma create_plot_quiet (w : World) (d : Data) (bounds : option Frame)
    (n : Z) :
  quiet (create_plot w d bounds n).
Proof. unfold create_plot. quiets. Qed.

Lemma alert_cues (w : World) (i : nat) (delay : float64) (oob late : bool) :
  cues i (alert w i delay oob late).
Proof.
  intros [|a st]; destruct oob, late; unfold cue_rel; simpl;
    (split;
     [ repeat constructor; unfold alerts_in; simpl; intros [H|H]; congruence
     | first [ left; repeat split; (reflexivity || discriminate)
             | right; repeat split;
               [ discriminate | eexists; reflexivity | discriminate ] ] ]).
Qed.

Lemma check_bounds_cues (w : World) (i : nat) (bounds : option Frame)
    (current_freq : cell) (delay : float64) :
  cues i (check_bounds w i bounds current_freq delay).
Proof.
  unfold check_bounds.
  destruct bounds as [b|]; [|apply cues_quiet; apply quiet_ret].
  destruct (negb (empty b)); [|apply cues_quiet; apply quiet_ret].
  repeat (apply cues_bind_l; [apply quiet_lift | intro]).
  apply alert_cues.
Qed.

Lemma show_device_cues (w : World) (i : nat) (n : Z) (d : Data)
    (bounds : option Frame) :
  cues i (show_device w i n d bounds).
Proof.
  unfold show_device.
  repeat (apply cues_bind_l; [apply quiet_lift | intro]).
  apply cues_bind_l; [apply quiet_emit; split; reflexivity | intro].
  apply cues_bind_l; [apply quiet_emit; split; reflexivity | intro].
  apply cues_bind_r; [apply check_bounds_cues | intro].
  apply quiet_bind; [apply create_plot_quiet | intro].
  apply quiet_emit; split; reflexivity.
Qed.

Lemma device_region_cues (w : World) (b : string) (i : nat) (n : Z) :
  cues i (device_region w b i n).
Proof.
  unfold device_region.
  apply cues_try; [|intro; apply quiet_emit; split; reflexivity].
  apply cues_bind_l; [apply load_data_quiet | intros [data bounds]].
  destruct data as [d|];
    [|apply cues_quiet; apply quiet_emit; split; reflexivity].
  destruct (has_rows (Some d));
    [|apply cues_quiet; apply quiet_emit; split; reflexivity].
  apply cues_try; [apply show_device_cues|].
  intro; apply quiet_emit; split; reflexivity.
Qed.

Lemma cue_rel_first (i : nat) (st : State) (tr : list event) (st' : State) :
  cue_rel i st tr st' -> loop_rel st tr st'.
Proof.
  intros [Hin [[Hst [Ha Hb]] | [Hst [Hst' [[a Ha] Hb]]]]]; split.
  - intros _. split; assumption.
  - intro E. left. subst st'. auto.
  - congruence.
  - intros _. right. split; [exact Hst'|].
    destruct (alert_banners tr) as [|b rest] eqn:Eb; [congruence|].
    exists a, b, rest. repeat split; [exact Ha|].
    rewrite Forall_forall in Hin.
    assert (Hina : In a (audios tr)) by (rewrite Ha; left; reflexivity).
    assert (Hinb : In b (alert_banners tr)) by (rewrite Eb; left; reflexivity).
    apply filter_In in Hina. apply filter_In in Hinb.
    destruct Hina as [Hina Hfa]. destruct Hinb as [Hinb Hfb].
    rewrite (Hin a Hina (or_introl Hfa)), (Hin b Hinb (or_intror Hfb)).
    reflexivity.
Qed.

Lemma loop_rel_step (st : State) (tr1 : list event) (st1 : State)
    (tr2 : list event) (st2 : State) :
  loop_rel st tr1 st1 -> loop_rel st1 tr2 st2 ->
  loop_rel st (tr1 ++ tr2) st2.
Proof.
  intros [H1a H1b] [H2a H2b].
  unfold loop_rel, audios, alert_banners in *. rewrite !filter_app.
  split.
  - intro Hst. destruct (H1a Hst) as [-> Ha1].
    destruct (H2a Hst) as [-> Ha2]. rewrite Ha1, Ha2. auto.
  - intro Hst.
    destruct (H1b Hst) as [[-> [Ha1 Hb1]] | [Hst1 [a [b [rest [Ha1 [Hb1 Hab]]]]]]].
    + rewrite Ha1, Hb1. simpl. apply H2b. reflexivity.
    + destruct (H2a Hst1) as [-> Ha2]. right. split; [exact Hst1|].
      exists a, b, (rest ++ filter is_alert_banner tr2).
      rewrite Ha1, Ha2, Hb1. auto.
Qed.

Lemma loop_cues (w : World) (b : string) (ns : list Z) :
  forall i st,
    loop_rel st (trace_of (for_enumerate (device_region w b) i ns st))
             (state_of (for_enumerate (device_region w b) i ns st)).
Proof.
  induction ns as [|n ns IH]; intros i st.
  - simpl. split; [intros _; auto | intros ->; left; auto].
  - simpl. rewrite run_bind.
    pose proof (device_region_cues w b i n st) as Hc.
    apply cue_rel_first in Hc.
    destruct (result_of (device_region w b i n st)); [|exact Hc].
    unfold trace_of at 1, state_of at 1. simpl.
    eapply loop_rel_step; [exact Hc | apply IH].
Qed.

(** One cue, in the column of the first banner. *)
Lemma audio_cue_count (w : World) :
  alert_banners (page_of w) <> [] ->
  List.length (audios (page_of w)) = 1%nat /\
  option_map fst (hd_error (audios (page_of w)))
    = option_map fst (hd_error (alert_banners (page_of w))).
Proof.
  unfold page_of, run_cycle.
  destruct (discovered w) as [ns|e] eqn:Hd.
  - destruct (script_run w ns Hd) as [b [notices [Hn Hrun]]].
    rewrite Hrun.
    assert (Hcalm : Forall calm notices)
      by (eapply Forall_impl; [exact notice_calm | exact Hn]).
    destruct (calm_filters notices Hcalm) as [Ha Hb].
    destruct ns as [|n ns]; simpl; unfold audios, alert_banners in *;
      rewrite !filter_app, ?Ha, ?Hb; simpl.
    + intro H. congruence.
    + rewrite !app_nil_r.
      destruct (loop_cues w b (n :: ns) 0%nat []) as [_ H].
      destruct (H eq_refl) as [[_ [_ Hno]] | [_ [a [b' [rest [Ha' [Hb' Hab]]]]]]];
        unfold loop, audios, alert_banners in *.
      * rewrite Hno. congruence.
      * rewrite Ha', Hb'. simpl. intros _. rewrite Hab. auto.
  - destruct (script_aborts w e Hd) as [notices [Hn Hrun]].
    rewrite Hrun. simpl.
    assert (Hcalm : Forall calm notices)
      by (eapply Forall_impl; [exact notice_calm | exact Hn]).
    destruct (calm_filters notices Hcalm) as [_ Hb]. congruence.
Qed.


(** * The order of the columns *)

Lemma tags_app (l1 l2 : list event) : tags (l1 ++ l2) = tags l1 ++ tags l2.
Proof.
  induction l1 as [|ev l1 IH]; [reflexivity|].
  simpl. destruct (tag ev); simpl; rewrite IH; reflexivity.
Qed.

Lemma tags_tagged_as (i : nat) (n : Z) (tr : list event) :
  Forall (tagged_as i n) tr -> Forall (eq (i, n)) (tags tr).
Proof.
  induction 1 as [|ev tr [H|H] _ IH]; simpl; [constructor| |]; rewrite H;
    [exact IH | constructor; [reflexivity | exact IH]].
Qed.

Lemma tags_notices (tr : list event) : Forall is_notice tr -> tags tr = [].
Proof.
  induction 1 as [|ev tr Hev _ IH]; [reflexivity|].
  destruct ev as [[| |] u]; simpl in Hev; try contradiction.
  simpl. exact IH.
Qed.

Lemma notice_tagged_as (i : nat) (n : Z) (ev : event) :
  is_notice ev -> tagged_as i n ev.
Proof.
  destruct ev as [[| |] u]; simpl; try contradiction. intros _. left.
  reflexivity.
Qed.

Lemma emits_only_bind_yields {A B : Type} (P : A -> Prop)
    (Q : event -> Prop) (m : M A) (k : A -> M B) :
  yields P m -> emits_only Q m -> (forall a, P a -> emits_only Q (k a)) ->
  emits_only Q (bind m k).
Proof.
  intros Hy Hm Hk st. rewrite run_bind. specialize (Hm st).
  destruct (result_of (m st)) as [a|e] eqn:E; simpl; [|exact Hm].
  apply Forall_app. split; [exact Hm | apply Hk; apply (Hy st); exact E].
Qed.

Lemma yields_lift {A : Type} (P : A -> Prop) (r : result A) :
  (forall a, r = Ok a -> P a) -> yields P (lift r).
Proof. intros H st a E. apply H. exact E. Qed.

Lemma create_plot_title (w : World) (d : Data) (bounds : option Frame)
    (n : Z) :
  yields (fun fig => fig_title_device fig = n) (create_plot w d bounds n).
Proof.
  unfold create_plot.
  repeat (apply yields_bind; intro).
  apply yields_ret. reflexivity.
Qed.

Lemma create_plot_silent (w : World) (d : Data) (bounds : option Frame)
    (n : Z) (Q : event -> Prop) :
  emits_only Q (create_plot w d bounds n).
Proof. unfold create_plot. emits. Qed.

Lemma emits_only_get (Q : event -> Prop) : emits_only Q get_audio_elements.
Proof. intro st. constructor. Qed.

Lemma emits_only_set (Q : event -> Prop) (l : State) :
  emits_only Q (set_audio_elements l).
Proof. intro st. constructor. Qed.

Ltac tagged :=
  repeat first
    [ apply emits_only_bind; [|intro]
    | apply emits_only_try; [|intro]
    | apply emits_only_lift
    | apply emits_only_ret
    | apply emits_only_raise
    | apply emits_only_get
    | apply emits_only_set
    | apply emits_only_emit; solve [left; reflexivity | right; reflexivity]
    | split_match ].

Lemma show_device_tagged (w : World) (i : nat) (n : Z) (d : Data)
    (bounds : option Frame) :
  emits_only (tagged_as i n) (show_device w i n d bounds).
Proof.
  unfold show_device.
  repeat (apply emits_only_bind; [apply emits_only_lift | intro]).
  apply emits_only_bind;
    [apply emits_only_emit; right; reflexivity | intro].
  apply emits_only_bind;
    [apply emits_only_emit; left; reflexivity | intro].
  apply emits_only_bind; [unfold check_bounds, alert; tagged | intro].
  apply (emits_only_bind_yields (fun fig => fig_title_device fig = n));
    [apply create_plot_title | apply create_plot_silent |].
  intros fig Hfig. apply emits_only_emit. right.
  unfold tag. simpl. rewrite Hfig. reflexivity.
Qed.

Lemma device_region_tagged (w : World) (b : string) (i : nat) (n : Z) :
  emits_only (tagged_as i n) (device_region w b i n).
Proof.
  unfold device_region.
  apply emits_only_try;
    [|intro; apply emits_only_emit; right; reflexivity].
  apply emits_only_bind.
  - apply (emits_only_weaken is_notice);
      [apply notice_tagged_as | apply load_data_notices].
  - intros [data bounds].
    destruct data as [d|];
      [|apply emits_only_emit; right; reflexivity].
    destruct (has_rows (Some d));
      [|apply emits_only_emit; right; reflexivity].
    apply emits_only_try; [apply show_device_tagged|].
    intro; apply emits_only_emit; right; reflexivity.
Qed.

Lemma marks_bind {A B : Type} (m : M A) (k : A -> M B) :
  (forall a, marks (k a)) -> marks (bind m k).
Proof.
  intros Hk st b. rewrite run_bind.
  destruct (result_of (m st)) as [a|e]; simpl; [|discriminate].
  unfold result_of at 1, trace_of at 1. simpl. intro H.
  rewrite tags_app. apply Hk in H.
  destruct (tags (trace_of (k a (state_of (m st))))); [congruence|].
  destruct (tags (trace_of (m st))); discriminate.
Qed.

Lemma marks_emit {B : Type} (rg : region) (u : ui) (k : unit -> M B) :
  tag (rg, u) <> None -> marks (bind (emit rg u) k).
Proof.
  intros Ht st b _. rewrite bind_emit. unfold trace_of at 1. simpl.
  destruct (tag (rg, u)); [discriminate | congruence].
Qed.

Lemma show_device_marks (w : World) (i : nat) (n : Z) (d : Data)
    (bounds : option Frame) :
  marks (show_device w i n d bounds).
Proof.
  unfold show_device.
  do 7 (apply marks_bind; intro).
  apply marks_emit. discriminate.
Qed.

Lemma device_region_marks (w : World) (b : string) (i : nat) (n : Z)
    (st : State) :
  tags (trace_of (device_region w b i n st)) <> [].
Proof.
  destruct (load_data_returns w b n st) as [[data bounds] Hr].
  pose proof (run_eta (load_data w b n st)) as Hload. rewrite Hr in Hload.
  rewrite (device_region_run _ _ _ _ _ _ _ _ _ Hload).
  assert (Hend : forall l ev, tag ev <> None -> tags (l ++ [ev]) <> []).
  { intros l ev Hev. rewrite tags_app. simpl.
    destruct (tag ev); [|congruence].
    destruct (tags l); discriminate. }
  destruct data as [d|]; [|apply Hend; discriminate].
  destruct (has_rows (Some d)); [|apply Hend; discriminate].
  cbv zeta.
  destruct (result_of (show_device w i n d bounds
                         (state_of (load_data w b n st)))) as [u|e] eqn:E.
  - apply show_device_marks in E. unfold trace_of at 1. simpl.
    rewrite tags_app.
    destruct (tags (trace_of (show_device _ _ _ _ _ _))); [congruence|].
    destruct (tags (trace_of (load_data w b n st))); discriminate.
  - unfold trace_of at 1. simpl. rewrite app_assoc.
    apply Hend. discriminate.
Qed.

Lemma same_tag_refl (x : nat * Z) : same_tag x x = true.
Proof. unfold same_tag. rewrite Nat.eqb_refl, Z.eqb_refl. reflexivity. Qed.

Lemma squash_after_same (x : nat * Z) (l rest : list (nat * Z)) :
  Forall (eq x) l -> squash_after x (l ++ rest) = squash_after x rest.
Proof.
  induction 1 as [|y l <- _ IH]; [reflexivity|].
  simpl. rewrite same_tag_refl. exact IH.
Qed.

Lemma squash_after_block (p x : nat * Z) (l rest : list (nat * Z)) :
  same_tag p x = false -> l <> [] -> Forall (eq x) l ->
  squash_after p (l ++ rest) = x :: squash_after x rest.
Proof.
  intros Hp Hl Hall. destruct l as [|y l]; [congruence|].
  inversion Hall as [|? ? <- Hall']. subst. simpl. rewrite Hp.
  rewrite squash_after_same by exact Hall'. reflexivity.
Qed.

Lemma squash_block (x : nat * Z) (l rest : list (nat * Z)) :
  l <> [] -> Forall (eq x) l ->
  squash (l ++ rest) = x :: squash_after x rest.
Proof.
  intros Hl Hall. destruct l as [|y l]; [congruence|].
  inversion Hall as [|? ? <- Hall']. subst. simpl.
  rewrite squash_after_same by exact Hall'. reflexivity.
Qed.

Lemma for_enumerate_cons_trace (w : World) (b : string) (i : nat) (n : Z)
    (ns : list Z) (st : State) :
  trace_of (for_enumerate (device_region w b) i (n :: ns) st) =
  trace_of (device_region w b i n st) ++
  trace_of (for_enumerate (device_region w b) (S i) ns
              (state_of (device_region w b i n st))).
Proof.
  simpl. rewrite run_bind.
  destruct (device_region_returns w b i n st) as [u Hu]. rewrite Hu.
  reflexivity.
Qed.

Lemma loop_tags (w : World) (b : string) (ns : list Z) :
  forall i st p,
    (fst p < i)%nat ->
    squash_after p
      (tags (trace_of (for_enumerate (device_region w b) i ns st)))
    = enumerate_from i ns.
Proof.
  induction ns as [|n ns IH]; intros i st p Hp; [reflexivity|].
  rewrite for_enumerate_cons_trace, tags_app.
  rewrite (squash_after_block p (i, n)).
  - simpl. f_equal. apply IH. simpl. lia.
  - unfold same_tag. simpl. destruct (Nat.eqb_spec (fst p) i); [lia|].
    reflexivity.
  - apply device_region_marks.
  - apply tags_tagged_as. apply device_region_tagged.
Qed.

Lemma list_comprehension_in_order {A B : Type} (f : A -> result B)
    (xs : list A) (ys : list B) :
  list_comprehension f xs = Ok ys -> Forall2 (fun x y => f x = Ok y) xs ys.
Proof.
  revert ys. induction xs as [|x xs IH]; intros ys H; simpl in H.
  - injection H as <-. constructor.
  - destruct (f x) as [y|e] eqn:E; [|discriminate].
    destruct (list_comprehension f xs) as [ys'|e]; [|discriminate].
    injection H as <-. constructor; [exact E | apply IH; reflexivity].
Qed.

(** C7, amended.  The devices are processed and rendered in the order in
    which the listing ([glob], or [list_objects_v2]) returned their files:
    column [k] shows the device parsed from the [k]-th listed file. *)
Theorem devices_render_in_listing_order (w : World) (ns : list Z)
    (files : list string) :
  discovered w = Ok ns ->
  listed w files ->
  rendered_devices (page_of w) = enumerate_from 0 ns /\
  (ns = [] \/ Forall2 (fun f n => py_int (device_suffix f) = Ok n) files ns).
Proof.
  intros Hd Hl. split.
  - destruct (script_run w ns Hd) as [b [notices [Hn Hrun]]].
    unfold rendered_devices, page_of, run_cycle. rewrite Hrun.
    destruct ns as [|n ns]; simpl.
    + rewrite tags_app, (tags_notices _ Hn). reflexivity.
    + rewrite !tags_app, (tags_notices _ Hn). simpl. rewrite app_nil_r.
      unfold loop. rewrite for_enumerate_cons_trace, tags_app.
      rewrite (squash_block (0%nat, n)).
      * f_equal. apply loop_tags. simpl. lia.
      * apply device_region_marks.
      * apply tags_tagged_as. apply device_region_tagged.
  - unfold discovered, listed, read_s3_bucket, discover in *.
    destruct (use_s3 w).
    + destruct Hl as [bucket [Hs Hf]]. rewrite bind_lift, Hs in Hd.
      pose proof (get_s3_client_keeps w []) as Hk.
      unfold bind, try_except in Hd.
      destruct (get_s3_client w []) as [[tr st] [[u|]|e]];
        unfold state_of in Hk; simpl in Hk; subst st; simpl in Hd.
      * rewrite Hf in Hd. simpl in Hd.
        destruct (parse_device_numbers files) as [ns'|e] eqn:E; simpl in Hd.
        -- unfold result_of in Hd. simpl in Hd. injection Hd as <-.
           right. apply list_comprehension_in_order. exact E.
        -- unfold result_of in Hd. simpl in Hd. injection Hd as <-.
           left. reflexivity.
      * unfold result_of in Hd. simpl in Hd. injection Hd as <-.
        left. reflexivity.
      * discriminate.
    + subst files. rewrite bind_ret in Hd. right.
      apply list_comprehension_in_order. exact Hd.
Qed.

Lemma listing_order_is_not_increasing :
  listed world_10_before_2 [data_path "10"; data_path "2"] /\
  rendered_devices (page_of world_10_before_2) = [(0%nat, 10); (1%nat, 2)] /\
  ~ Sorted Z.lt (map snd (rendered_devices (page_of world_10_before_2))).
Proof.
  split; [reflexivity|]. split; [vm_compute; reflexivity|].
  replace (rendered_devices (page_of world_10_before_2))
    with [(0%nat, 10); (1%nat, 2)] by (vm_compute; reflexivity).
  simpl. intro H. inversion H as [|? ? _ Hhd]. inversion Hhd as [|? ? Hlt].
  discriminate Hlt.
Qed.

(** * The two alert conditions *)

Lemma SFcompare_antisym (x y : float64) :
  SFcompare y x = option_map CompOpp (SFcompare x y).
Proof.
  destruct x as [sx|sx| |sx mx ex], y as [sy|sy| |sy my ey]; simpl;
    try reflexivity; try (destruct sx; reflexivity);
    try (destruct sy; reflexivity);
    try (destruct sx, sy; reflexivity).
  destruct sx, sy; simpl; try reflexivity;
    rewrite (Z.compare_antisym ey ex); destruct (ey ?= ex); simpl;
    rewrite ?(Pos.compare_cont_antisym mx my Eq); reflexivity.
Qed.

Lemma SFleb_not_gt (x y : float64) : SFleb x y = true -> SFltb y x = false.
Proof.
  unfold SFleb, SFltb. rewrite (SFcompare_antisym x y).
  destruct (SFcompare x y) as [[ | | ]|]; simpl; congruence.
Qed.

Lemma freq_out_of_bounds_numbers (v mn mx : float64) :
  freq_out_of_bounds (CNum v) (CNum mn) (CNum mx)
  = Ok (SFltb v mn || SFltb mx v).
Proof.
  unfold freq_out_of_bounds, cell_gt, cell_lt.
  destruct (SFltb v mn); reflexivity.
Qed.

Lemma two_pow_pos (e : Z) : (0 < 2 ^ e)%Q.
Proof. apply Qpower_0_lt. reflexivity. Qed.

Lemma float_gt_int_exceeds (d : float64) (t : Z) :
  float_gt_int d t = true <-> exceeds d t.
Proof.
  destruct d as [s|s| |s m e]; simpl.
  - rewrite Z.ltb_lt, Zlt_Qlt. reflexivity.
  - destruct s; simpl; split; congruence.
  - split; [congruence | tauto].
  - set (n := cond_Zopp s (Z.pos m)).
    destruct (Z.leb_spec 0 e) as [He|He].
    + rewrite Z.ltb_lt, Zlt_Qlt, inject_Z_mult, (Zpower_Qpower 2 e He).
      reflexivity.
    + rewrite Z.ltb_lt, Zlt_Qlt, inject_Z_mult.
      rewrite (Zpower_Qpower 2 (- e)) by lia.
      rewrite Qpower_opp.
      pose proof (two_pow_pos e) as Hp.
      change (inject_Z 2) with 2%Q.
      set (p := (2 ^ e)%Q) in *.
      assert (Hne : ~ p == 0) by (intro E; rewrite E in Hp; discriminate).
      rewrite <- (Qmult_lt_r (inject_Z t * / p) _ p) by exact Hp.
      rewrite <- Qmult_assoc, (Qmult_comm (/ p)), Qmult_inv_r, Qmult_1_r
        by exact Hne.
      reflexivity.
Qed.

Lemma exceeds_strict (d : float64) (t : Z) (q : Q) :
  float_exact d = Some q -> q == inject_Z t -> ~ exceeds d t.
Proof.
  intros Hq Heq Hex. unfold exceeds in Hex.
  destruct d as [s|s| |s m e]; try discriminate; rewrite Hq in Hex;
    rewrite Heq in Hex; exact (Qlt_irrefl _ Hex).
Qed.

(** With a bounds record in hand, the check of lines 255-273 is [alert]
    on the two flags. *)
Lemma check_bounds_run (w : World) (i : nat) (b : Frame)
    (current_freq min_freq max_freq : cell) (delay : float64) (oob : bool)
    (st : State) :
  empty b = false ->
  first_row b "min_freq" = Ok min_freq ->
  first_row b "max_freq" = Ok max_freq ->
  freq_out_of_bounds current_freq min_freq max_freq = Ok oob ->
  check_bounds w i (Some b) current_freq delay st
  = alert w i delay oob (delay_too_large delay (delay_threshold w)) st.
Proof.
  unfold first_row, check_bounds. intros -> Hmin Hmax Hoob. simpl.
  rewrite bind_lift.
  destruct (getitem b "min_freq") as [min_col|]; [|discriminate].
  rewrite bind_lift, Hmin, bind_lift.
  destruct (getitem b "max_freq") as [max_col|]; [|discriminate].
  rewrite bind_lift, Hmax, bind_lift, Hoob. reflexivity.
Qed.

(** Which banners [alert] shows. *)
Lemma alert_banners_shown (w : World) (i : nat) (delay : float64)
    (oob late : bool) (st : State) :
  existsb is_freq_banner (trace_of (alert w i delay oob late st)) = oob /\
  existsb is_delay_banner (trace_of (alert w i delay oob late st)) = late.
Proof.
  destruct st as [|a st], oob, late; split; reflexivity.
Qed.

(** C2.  For a bounds record whose first row holds [min_freq = mn] and
    [max_freq = mx] and a current filtered frequency [v], the flag
    [freq_out_of_bounds] of line 258 -- and with it the "Frequency out of
    bounds!" banner -- is off when [mn <= v <= mx], both ends included, and
    is on exactly when [v < mn] or [v > mx]. *)
Theorem frequency_out_of_bounds_inclusive (w : World) (i : nat) (b : Frame)
    (v mn mx delay : float64) (st : State) :
  empty b = false ->
  first_row b "min_freq" = Ok (CNum mn) ->
  first_row b "max_freq" = Ok (CNum mx) ->
  exists oob,
    freq_out_of_bounds (CNum v) (CNum mn) (CNum mx) = Ok oob /\
    existsb is_freq_banner
      (trace_of (check_bounds w i (Some b) (CNum v) delay st)) = oob /\
    (SFleb mn v = true -> SFleb v mx = true -> oob = false) /\
    (oob = true <-> SFltb v mn = true \/ SFltb mx v = true).
Proof.
  intros Hb Hmin Hmax. exists (SFltb v mn || SFltb mx v).
  pose proof (freq_out_of_bounds_numbers v mn mx) as Hflag.
  split; [exact Hflag|]. split; [|split].
  - rewrite (check_bounds_run w i b _ _ _ delay _ st Hb Hmin Hmax Hflag).
    apply alert_banners_shown.
  - intros Hlo Hhi.
    rewrite (SFleb_not_gt mn v Hlo), (SFleb_not_gt v mx Hhi). reflexivity.
  - apply orb_true_iff.
Qed.

Lemma frequency_out_of_bounds_inclusive_example :
  existsb is_freq_banner
    (trace_of (check_bounds world_in_bounds 0 (Some bounds_frame)
                 (CNum (float_of_Z 110)) (float_of_Z 30) [])) = false.
Proof.
  destruct (frequency_out_of_bounds_inclusive world_in_bounds 0 bounds_frame
              (float_of_Z 110) (float_of_Z 90) (float_of_Z 110)
              (float_of_Z 30) [] eq_refl eq_refl eq_refl)
    as [oob [_ [Hshown [Hin _]]]].
  rewrite Hshown. apply Hin; reflexivity.
Defined.

(** C3.  For a delay [d] and the configured threshold [t], the flag
    [delay_too_large] of line 259 -- and with it the "Delay exceeds
    threshold" banner -- is on if and only if [d > t]; a delay equal to
    the threshold does not exceed it. *)
Theorem delay_exceeded_is_strict (w : World) (i : nat) (b : Frame)
    (current_freq min_freq max_freq : cell) (oob : bool) (d : float64)
    (st : State) :
  empty b = false ->
  first_row b "min_freq" = Ok min_freq ->
  first_row b "max_freq" = Ok max_freq ->
  freq_out_of_bounds current_freq min_freq max_freq = Ok oob ->
  existsb is_delay_banner
    (trace_of (check_bounds w i (Some b) current_freq d st))
  = delay_too_large d (delay_threshold w) /\
  (delay_too_large d (delay_threshold w) = true <->
   exceeds d (delay_threshold w)) /\
  (forall q, float_exact d = Some q -> q == inject_Z (delay_threshold w) ->
             delay_too_large d (delay_threshold w) = false).
Proof.
  intros Hb Hmin Hmax Hflag. split; [|split].
  - rewrite (check_bounds_run w i b _ _ _ d _ st Hb Hmin Hmax Hflag).
    apply alert_banners_shown.
  - apply float_gt_int_exceeds.
  - intros q Hq Heq. apply not_true_is_false. intro Hlate.
    apply float_gt_int_exceeds in Hlate.
    exact (exceeds_strict d _ q Hq Heq Hlate).
Qed.

Lemma delay_exceeded_is_strict_example :
  delay_too_large (float_of_Z 60) (delay_threshold world_in_bounds) = false /\
  existsb is_delay_banner
    (trace_of (check_bounds world_in_bounds 0 (Some bounds_frame)
                 (CNum (float_of_Z 98)) (float_of_Z 60) [])) = false.
Proof.
  destruct (delay_exceeded_is_strict world_in_bounds 0 bounds_frame
              (CNum (float_of_Z 98)) (CNum (float_of_Z 90))
              (CNum (float_of_Z 110)) false (float_of_Z 60) []
              eq_refl eq_refl eq_refl eq_refl)
    as [Hshown [_ Hstrict]].
  assert (Hlate : delay_too_large (float_of_Z 60)
                    (delay_threshold world_in_bounds) = false).
  { apply (Hstrict (inject_Z 8444249301319680 * 2 ^ (-47))%Q);
      reflexivity. }
  split; [exact Hlate | rewrite Hshown; exact Hlate].
Defined.

(** * The theorems at work on the sample worlds *)

Lemma missing_bounds_shows_no_metrics_example :
  device_region world_no_bounds "" 0 1 []
  = ([processing_error 0 1 TypeError], [], Ok tt).
Proof.
  pose (d := mkData (sample_frame 100 98) [Some 1704067200000000000]).
  destruct (missing_bounds_shows_no_metrics world_no_bounds "" 0 1 [] [] []
              d eq_refl eq_refl) as [_ [e [Hrun He]]].
  rewrite Hrun, (He eq_refl). reflexivity.
Defined.

Lemma empty_bounds_is_an_error_example :
  device_region world_empty_bounds "" 0 1 []
  = ([processing_error 0 1 IndexError], [], Ok tt).
Proof.
  pose (d := mkData (sample_frame 100 98) [Some 1704067200000000000]).
  destruct (empty_bounds_is_an_error world_empty_bounds "" 0 1 [] [] []
              d bounds_header_only eq_refl eq_refl eq_refl)
    as [_ [e [Hrun He]]].
  rewrite Hrun, (He eq_refl). reflexivity.
Defined.

Lemma unparsable_name_aborts_local_cycle_example :
  run_cycle world_stray_file = ([], Raise ValueError).
Proof.
  apply (unparsable_name_aborts_local_cycle world_stray_file ValueError);
    reflexivity.
Defined.

(** The same stray name in the bucket is caught by the remote branch. *)
Lemma stray_key_is_caught_in_remote_mode :
  run_cycle world_s3_stray_key
  = ([(Main, StError (MsgS3List ValueError)); (Main, StWarning MsgNoDevices)],
     Ok tt).
Proof. reflexivity. Qed.

Lemma bounds_fault_in_remote_mode_example :
  load_s3_data world_s3_bad_bounds "telemetry" 1 []
  = ([(Main, StError (MsgS3Load (OtherError "ParserError")))], [],
     Ok (None, None)) /\
  load_s3_data world_s3_no_bounds "telemetry" 1 []
  = ([], [],
     Ok (Some (mkData (sample_frame 100 98) [Some 1704067200000000000]),
         None)).
Proof.
  split.
  - apply (bounds_fault_in_remote_mode world_s3_bad_bounds "telemetry" 1 []
             "samples" (sample_frame 100 98)
             (mkData (sample_frame 100 98) [Some 1704067200000000000])
             (OtherError "ParserError")); try reflexivity.
    right. exists "garbled". split; reflexivity.
  - apply (bounds_fault_in_remote_mode world_s3_no_bounds "telemetry" 1 []
             "samples" (sample_frame 100 98)
             (mkData (sample_frame 100 98) [Some 1704067200000000000])
             (ClientError "NoSuchKey")); try reflexivity.
    left. reflexivity.
Defined.

(** The sample object of device 1 is fetched and parsed; its bounds object
    does not parse; the samples are dropped with it. *)
Lemma bounds_parse_fault_discards_samples :
  get_object world_s3_bad_bounds "telemetry" (data_key 1) = Ok "samples" /\
  read_csv_bytes world_s3_bad_bounds "samples" = Ok (sample_frame 100 98) /\
  ~ samples_survive world_s3_bad_bounds "telemetry" 1.
Proof.
  split; [reflexivity|]. split; [reflexivity|].
  intro H. destruct (H (OtherError "ParserError")) as [d Hd].
  - right. exists "garbled". split; reflexivity.
  - vm_compute in Hd. discriminate Hd.
Qed.

Lemma devices_render_in_listing_order_example :
  rendered_devices (page_of world_10_before_2) = [(0%nat, 10); (1%nat, 2)].
Proof.
  apply (devices_render_in_listing_order world_10_before_2 [10; 2]
           [data_path "10"; data_path "2"]); reflexivity.
Defined.

(** * Further properties *)

Lemma trace_of_run {A : Type} (tr : list event) (st : State) (r : result A) :
  trace_of (tr, st, r) = tr.
Proof. reflexivity. Qed.

Lemma state_of_run {A : Type} (tr : list event) (st : State) (r : result A) :
  state_of (tr, st, r) = st.
Proof. reflexivity. Qed.

Lemma result_of_run {A : Type} (tr : list event) (st : State) (r : result A) :
  result_of (tr, st, r) = r.
Proof. reflexivity. Qed.

(** * File names and device numbers *)

Lemma append_assoc (a b c : string) :
  ((a ++ b) ++ c)%string = (a ++ (b ++ c))%string.
Proof. induction a as [|x a IH]; simpl; [reflexivity | rewrite IH; reflexivity]. Qed.

Lemma append_nil_r (a : string) : (a ++ "")%string = a.
Proof. induction a as [|x a IH]; simpl; [reflexivity | rewrite IH; reflexivity]. Qed.

Lemma all_chars_app (p : ascii -> bool) (a b : string) :
  all_chars p (a ++ b) = all_chars p a && all_chars p b.
Proof.
  induction a as [|x a IH]; simpl; [reflexivity|].
  rewrite IH, andb_assoc. reflexivity.
Qed.

Lemma all_chars_impl (p q : ascii -> bool) (s : string) :
  (forall c, p c = true -> q c = true) ->
  all_chars p s = true -> all_chars q s = true.
Proof.
  intro H. induction s as [|c s IH]; simpl; [reflexivity|].
  rewrite !andb_true_iff. intros [Hc Hs]. split; [apply H; exact Hc | apply IH; exact Hs].
Qed.

Lemma rev_string_rev_string (s a b : string) :
  rev_string (rev_string s a) b = rev_string a (s ++ b)%string.
Proof.
  revert a b. induction s as [|c s IH]; intros a b; simpl; [reflexivity|].
  rewrite IH. reflexivity.
Qed.

Lemma all_chars_rev_string (p : ascii -> bool) (s a : string) :
  all_chars p (rev_string s a) = all_chars p s && all_chars p a.
Proof.
  revert a. induction s as [|c s IH]; intro a; simpl; [reflexivity|].
  rewrite IH. simpl. rewrite !andb_assoc. f_equal. apply andb_comm.
Qed.

Lemma lstrip_no_space (s : string) :
  all_chars (fun c => negb (is_space c)) s = true -> lstrip s = s.
Proof.
  destruct s as [|c s]; simpl; [reflexivity|].
  rewrite andb_true_iff. intros [Hc _].
  destruct (is_space c); [discriminate | reflexivity].
Qed.

Lemma strip_no_space (s : string) :
  all_chars (fun c => negb (is_space c)) s = true -> strip s = s.
Proof.
  intro H. unfold strip. rewrite (lstrip_no_space s H).
  rewrite lstrip_no_space.
  - rewrite rev_string_rev_string. simpl. apply append_nil_r.
  - rewrite all_chars_rev_string, H. reflexivity.
Qed.

Lemma digits_of_uint (d : Decimal.uint) :
  all_chars is_digit (NilEmpty.string_of_uint d) = true.
Proof. induction d; simpl; [reflexivity | exact IHd ..]. Qed.

Lemma int_digits_digit (c : ascii) (s : string) (acc : Z) (b : bool) :
  is_digit c = true ->
  int_digits (String c s) acc b = int_digits s (10 * acc + digit_val c) true.
Proof. simpl. intros ->. reflexivity. Qed.

Lemma int_digits_acc (d : Decimal.uint) (acc : positive) :
  int_digits (NilEmpty.string_of_uint d) (Zpos acc) true
  = Some (Zpos (Pos.of_uint_acc d acc)).
Proof.
  revert acc. induction d; intro acc;
    cbn [NilEmpty.string_of_uint Pos.of_uint_acc]; [reflexivity | ..];
    rewrite int_digits_digit by reflexivity;
    match goal with
    | |- int_digits _ ?z true = Some (Z.pos (Pos.of_uint_acc _ ?p)) =>
        replace z with (Z.pos p)
          by (unfold digit_val; cbn [nat_of_ascii]; vm_compute Z.of_nat; lia)
    end;
    apply IHd.
Qed.

Lemma int_digits_of_uint (d : Decimal.uint) (after_digit : bool) :
  d <> Decimal.Nil \/ after_digit = true ->
  int_digits (NilEmpty.string_of_uint d) 0 after_digit
  = Some (Z.of_uint d).
Proof.
  unfold Z.of_uint. revert after_digit.
  induction d; intros b Hb;
    cbn [NilEmpty.string_of_uint Pos.of_uint];
    try (rewrite int_digits_digit by reflexivity).
  - destruct Hb as [Hb | ->]; [congruence | reflexivity].
  - apply IHd. right. reflexivity.
  - apply (int_digits_acc d 1).
  - apply (int_digits_acc d 2).
  - apply (int_digits_acc d 3).
  - apply (int_digits_acc d 4).
  - apply (int_digits_acc d 5).
  - apply (int_digits_acc d 6).
  - apply (int_digits_acc d 7).
  - apply (int_digits_acc d 8).
  - apply (int_digits_acc d 9).
Qed.

Lemma digit_not_space (c : ascii) : is_digit c = true -> negb (is_space c) = true.
Proof.
  unfold is_digit, is_space. destruct (nat_of_ascii c) as [|n] eqn:E.
  - discriminate.
  - do 32 (destruct n as [|n]; [discriminate|]).
    do 16 (destruct n as [|n]; [reflexivity|]).
    do 10 (destruct n as [|n]; [reflexivity|]).
    discriminate.
Qed.

Lemma digits_nonempty (d : Decimal.uint) :
  NilZero.string_of_uint d <> "" /\
  all_chars is_digit (NilZero.string_of_uint d) = true /\
  int_digits (NilZero.string_of_uint d) 0 false = Some (Z.of_uint d).
Proof.
  destruct d; try (repeat split; [discriminate | apply (digits_of_uint _) |
    apply int_digits_of_uint; left; discriminate]).
  repeat split. discriminate.
Qed.

Lemma py_int_of_digits (s : string) (n : Z) :
  s <> "" -> all_chars is_digit s = true ->
  int_digits s 0 false = Some n ->
  py_int s = Ok n /\ py_int (String "-" s) = Ok (- n).
Proof.
  intros Hne Hd Hn.
  assert (Hs : all_chars (fun c => negb (is_space c)) s = true)
    by (apply (all_chars_impl is_digit); [exact digit_not_space | exact Hd]).
  unfold py_int. split.
  - rewrite (strip_no_space s Hs).
    destruct s as [|c s]; [congruence|].
    simpl in Hd. apply andb_true_iff in Hd. destruct Hd as [Hc _].
    destruct c as [[|] [|] [|] [|] [|] [|] [|] [|]]; try discriminate Hc;
      rewrite Hn; reflexivity.
  - rewrite strip_no_space by (simpl; exact Hs).
    rewrite Hn. reflexivity.
Qed.

(** [int(str(n)) == n] *)
Lemma py_int_str_of_Z (n : Z) : py_int (str_of_Z n) = Ok n.
Proof.
  unfold str_of_Z. rewrite <- (DecimalZ.of_to n) at 2.
  destruct (Z.to_int n) as [d|d]; simpl;
    destruct (digits_nonempty d) as [Hne [Hd Hn]];
    destruct (py_int_of_digits _ _ Hne Hd Hn) as [Hpos Hneg]; assumption.
Qed.

Lemma str_of_Z_chars (n : Z) :
  all_chars (not_char "_") (str_of_Z n) = true /\
  all_chars (not_char ".") (str_of_Z n) = true.
Proof.
  assert (H : forall c, is_digit c = true ->
                        not_char "_" c = true /\ not_char "." c = true).
  { intros c Hc.
    destruct c as [[|] [|] [|] [|] [|] [|] [|] [|]]; try discriminate Hc;
      split; reflexivity. }
  unfold str_of_Z. destruct (Z.to_int n) as [d|d]; simpl;
    destruct (digits_nonempty d) as [_ [Hd _]]; split;
    try (apply (all_chars_impl is_digit); [apply H | exact Hd]).
Qed.

Lemma split_aux_nonempty (sep : ascii) (s cur : string) :
  split_aux sep s cur <> [].
Proof.
  revert cur. induction s as [|c s IH]; intro cur; simpl; [discriminate|].
  destruct (Ascii.eqb c sep); [discriminate | apply IH].
Qed.

Lemma split_aux_no_sep (sep : ascii) (s cur : string) :
  all_chars (not_char sep) s = true ->
  split_aux sep s cur = [(cur ++ s)%string].
Proof.
  revert cur. induction s as [|c s IH]; intros cur H; simpl in *.
  - rewrite append_nil_r. reflexivity.
  - apply andb_true_iff in H. destruct H as [Hc Hs].
    unfold not_char in Hc. apply negb_true_iff in Hc. rewrite Hc.
    rewrite (IH _ Hs), append_assoc. reflexivity.
Qed.

Lemma last_cons_nonempty {A : Type} (x : A) (l : list A) (d : A) :
  l <> [] -> last (x :: l) d = last l d.
Proof. destruct l; [congruence | reflexivity]. Qed.

(** [(p + sep + t).split(sep)[-1] == t] when [t] holds no [sep]. *)
Lemma last_split (sep : ascii) (p t : string) :
  all_chars (not_char sep) t = true ->
  last (split sep (p ++ String sep t)) "" = t.
Proof.
  intro Ht. unfold split. generalize "" at 1 as cur.
  induction p as [|c p IH]; intro cur; simpl.
  - rewrite Ascii.eqb_refl.
    rewrite last_cons_nonempty by apply split_aux_nonempty.
    rewrite (split_aux_no_sep sep t "" Ht). reflexivity.
  - destruct (Ascii.eqb c sep).
    + rewrite last_cons_nonempty by apply split_aux_nonempty. apply IH.
    + apply IH.
Qed.

(** [(s + sep + r).split(sep)[0] == s] when [s] holds no [sep]. *)
Lemma hd_split (sep : ascii) (s r : string) :
  all_chars (not_char sep) s = true ->
  hd "" (split sep (s ++ String sep r)) = s.
Proof.
  intro Hs. unfold split.
  assert (H : forall cur, hd "" (split_aux sep (s ++ String sep r) cur)
                          = (cur ++ s)%string).
  { induction s as [|c s IH]; intro cur; simpl in *.
    - rewrite Ascii.eqb_refl. simpl. rewrite append_nil_r. reflexivity.
    - apply andb_true_iff in Hs. destruct Hs as [Hc Hs].
      unfold not_char in Hc. apply negb_true_iff in Hc. rewrite Hc.
      rewrite (IH Hs), append_assoc. reflexivity. }
  apply H.
Qed.

Lemma device_suffix_of_name (p : string) (n : Z) :
  device_suffix (p ++ recent_data_name n) = str_of_Z n.
Proof.
  unfold device_suffix, recent_data_name.
  destruct (str_of_Z_chars n) as [Hu Hd].
  change ("recent_data_device_" ++ str_of_Z n ++ ".csv")%string
    with ("recent_data_device" ++ String "_" (str_of_Z n ++ ".csv"))%string.
  rewrite <- append_assoc, last_split.
  - change (str_of_Z n ++ ".csv")%string
      with (str_of_Z n ++ String "." "csv")%string.
    apply hd_split. exact Hd.
  - rewrite all_chars_app, Hu. reflexivity.
Qed.

Lemma path_join_name (a : string) (n : Z) :
  exists p, path_join a (recent_data_name n) = (p ++ recent_data_name n)%string.
Proof.
  unfold path_join. unfold recent_data_name at 1.
  cbn [append].
  fold (recent_data_name n).
  change (String "r" ("ecent_data_device_" ++ str_of_Z n ++ ".csv"))%string
    with (recent_data_name n).
  destruct a as [|c a]; [exists ""; reflexivity|].
  destruct (String.eqb _ "/").
  - exists (String c a). reflexivity.
  - exists (String c a ++ "/")%string. rewrite append_assoc. reflexivity.
Qed.

Lemma naming_round_trip (w : World) (n : Z) :
  py_int (device_suffix (recent_data_file w n)) = Ok n /\
  py_int (device_suffix (data_key n)) = Ok n.
Proof.
  split.
  - unfold recent_data_file.
    destruct (path_join_name (recent_data_dir w) n) as [p ->].
    rewrite device_suffix_of_name. apply py_int_str_of_Z.
  - unfold data_key. rewrite device_suffix_of_name. apply py_int_str_of_Z.
Qed.

(** X1.  The names under which [load_data] looks a device up -- the local
    path of line 90 and the object key of line 55 -- parse back to the
    device number through the expression of lines 208 and 216,
    [int(f.split('_')[-1].split('.')[0])], whatever the base directory:
    a listing of those names gives the device numbers back, in order. *)
Theorem listed_names_parse_back (w : World) (ns : list Z) :
  parse_device_numbers (map (recent_data_file w) ns) = Ok ns /\
  parse_device_numbers (map data_key ns) = Ok ns.
Proof.
  unfold parse_device_numbers.
  split; induction ns as [|n ns IH]; simpl; try reflexivity;
    destruct (naming_round_trip w n) as [H1 H2];
    rewrite ?H1, ?H2, IH; reflexivity.
Qed.

(** * Loading *)

Lemma silent_when_bind {A B : Type} (q : A -> bool) (P : B -> Prop)
    (m : M A) (k : A -> M B) :
  silent_when (fun a => q a = true) m ->
  (forall a, q a = true -> silent_when P (k a)) ->
  (forall a, q a = false -> yields (fun b => ~ P b) (k a)) ->
  silent_when P (bind m k).
Proof.
  intros Hm Hk Hn st b. rewrite run_bind.
  destruct (result_of (m st)) as [a|e] eqn:E; [|discriminate].
  unfold result_of at 1, trace_of at 1. simpl. intros Hr Hp.
  destruct (q a) eqn:Hq.
  - rewrite (Hm st a E Hq), (Hk a Hq _ _ Hr Hp). reflexivity.
  - exfalso. exact (Hn a Hq _ _ Hr Hp).
Qed.

Lemma silent_when_lift {A B : Type} (P : B -> Prop) (r : result A)
    (k : A -> M B) :
  (forall a, silent_when P (k a)) -> silent_when P (bind (lift r) k).
Proof.
  intros Hk st b. rewrite bind_lift. destruct r as [a|e]; [apply Hk|].
  discriminate.
Qed.

Lemma silent_when_ret {A : Type} (P : A -> Prop) (a : A) :
  silent_when P (ret a).
Proof. intros st a' _ _. reflexivity. Qed.

Lemma silent_when_raise {A : Type} (P : A -> Prop) (e : exn) :
  silent_when P (@raise A e).
Proof. intros st a' _ _. reflexivity. Qed.

Lemma silent_when_try {A : Type} (P : A -> Prop) (m : M A)
    (c : exn -> bool) (h : exn -> M A) :
  silent_when P m -> (forall e, yields (fun a => ~ P a) (h e)) ->
  silent_when P (try_except m c h).
Proof.
  intros Hm Hh st a. rewrite run_try.
  destruct (result_of (m st)) as [a'|e] eqn:E.
  - intros Hr Hp. apply (Hm st a); assumption.
  - destruct (c e).
    + unfold result_of at 1. simpl. intros Hr Hp.
      exfalso. exact (Hh e _ _ Hr Hp).
    + rewrite E. discriminate.
Qed.

Lemma get_s3_client_silent (w : World) :
  silent_when (fun c => match c with Some _ => true | None => false end = true)
              (get_s3_client w).
Proof.
  unfold get_s3_client. apply silent_when_try.
  - repeat (apply silent_when_lift; intro). apply silent_when_ret.
  - intro e. apply yields_bind. intro. apply yields_ret. discriminate.
Qed.

Lemma convert_time_renders_nothing (w : World) (df : Frame) (st : State) :
  trace_of (convert_time w df st) = [].
Proof.
  unfold convert_time. rewrite bind_lift.
  destruct (getitem df "time") as [col|]; [|reflexivity]. rewrite bind_lift.
  destruct (to_datetime w col); [|reflexivity].
  destruct (Nat.eqb _ _); reflexivity.
Qed.

Lemma no_data_on_error (m : M unit) :
  yields (fun x : option Data * option Frame => ~ has_data x)
         (m ;; ret (None, None)).
Proof.
  apply yields_bind. intro. apply yields_ret. unfold has_data. simpl. tauto.
Qed.

Lemma load_data_silent (w : World) (b : string) (n : Z) :
  silent_when has_data (load_data w b n).
Proof.
  assert (Hconv : forall df (k : Data -> M (option Data * option Frame)),
             (forall d, silent_when has_data (k d)) ->
             silent_when has_data (bind (convert_time w df) k)).
  { intros df k Hk. apply (silent_when_bind (fun _ => true)).
    - intros st a _ _. apply convert_time_renders_nothing.
    - intros d _. apply Hk.
    - intros ? Hq; discriminate Hq. }
  unfold load_data, load_s3_data. destruct (use_s3 w).
  - apply (silent_when_bind
             (fun c => match c with Some _ => true | None => false end));
      [apply get_s3_client_silent | |].
    + intros [u|] Hq; [|discriminate Hq].
      apply silent_when_try; [apply silent_when_try|].
      * do 2 (apply silent_when_lift; intro). apply Hconv. intro d.
        apply (silent_when_bind (fun _ => true)).
        -- intros st x _ _. unfold try_except, bind, lift, ret.
           destruct (get_object w b (bounds_key n)) as [bb|e]; simpl.
           ++ destruct (read_csv_bytes w bb) as [x'|e]; simpl;
                [reflexivity | destruct (is_ClientError e); reflexivity].
           ++ destruct (is_ClientError e); reflexivity.
        -- intros x _. apply silent_when_ret.
        -- intros ? Hq'; discriminate Hq'.
      * intro e. destruct (String.eqb _ _);
          [apply yields_ret; unfold has_data; simpl; tauto
          | apply no_data_on_error].
      * intro e. apply no_data_on_error.
    + intros [u|] Hq; [discriminate|].
      apply yields_ret. unfold has_data. simpl. tauto.
  - apply silent_when_try; [|intro e; apply no_data_on_error].
    destruct (negb _); [apply silent_when_ret|].
    apply silent_when_lift; intro df. apply Hconv. intro d.
    apply (silent_when_bind (fun _ => true)).
    + intros st x _ _. destruct (path_exists w (bounds_file w n));
        [|reflexivity].
      rewrite bind_lift.
      destruct (read_csv_path w (bounds_file w n)); reflexivity.
    + intros x _. apply silent_when_ret.
    + intros ? Hq; discriminate Hq.
Qed.

Lemma load_data_bounds_need_data (w : World) (b : string) (n : Z) :
  yields (fun x => fst x = None -> snd x = None) (load_data w b n).
Proof.
  assert (Hnone : forall m : M unit,
             yields (fun x : option Data * option Frame =>
                       fst x = None -> snd x = None)
                    (m ;; ret (None, None))).
  { intro m. apply yields_bind. intro. apply yields_ret. reflexivity. }
  unfold load_data, load_s3_data. destruct (use_s3 w).
  - apply yields_bind. intros [u|]; [|apply yields_ret; reflexivity].
    apply yields_try; [apply yields_try|].
    + do 4 (apply yields_bind; intro). apply yields_ret. discriminate.
    + intro e. destruct (String.eqb _ _);
        [apply yields_ret; reflexivity | apply Hnone].
    + intro e. apply Hnone.
  - apply yields_try; [|intro e; apply Hnone].
    destruct (negb _); [apply yields_ret; reflexivity|].
    do 3 (apply yields_bind; intro). apply yields_ret. discriminate.
Qed.

(** X2.  Whatever [load_data] returns, it leaves [audio_elements] alone,
    it never returns bounds without a sample window, and it has shown no
    message when it returns a sample window: every message of a loader
    comes with (absent, absent). *)
Theorem load_data_all_or_nothing (w : World) (b : string) (n : Z)
    (st st' : State) (tr : list event) (data : option Data)
    (bounds : option Frame) :
  load_data w b n st = (tr, st', Ok (data, bounds)) ->
  st' = st /\
  (data = None -> bounds = None) /\
  (data <> None -> tr = []).
Proof.
  intro H. split; [|split].
  - pose proof (load_data_keeps w b n st) as Hk. rewrite H in Hk.
    exact Hk.
  - pose proof (load_data_bounds_need_data w b n st (data, bounds)) as Hb.
    rewrite H in Hb. exact (Hb eq_refl).
  - pose proof (load_data_silent w b n st (data, bounds)) as Hs.
    rewrite H in Hs. exact (Hs eq_refl).
Qed.

Lemma convert_time_pure (w : World) (df : Frame) (st : State) :
  convert_time w df st = ([], st, converted w df).
Proof.
  unfold converted, convert_time. rewrite !bind_lift.
  destruct (getitem df "time") as [col|]; [|reflexivity].
  rewrite !bind_lift.
  destruct (to_datetime w col); [|reflexivity].
  destruct (Nat.eqb _ _); reflexivity.
Qed.

(** X3.  In remote mode, a fault in fetching, parsing or time-converting
    the sample object yields (absent, absent): silently when it is the
    [ClientError] with code [NoSuchKey], with "Error accessing S3" for
    any other [ClientError], and with "Error loading S3 data" for any
    other exception. *)
Theorem remote_sample_fault (w : World) (b : string) (n : Z) (st : State)
    (e : exn) :
  get_s3_client w st = ([], st, Ok (Some tt)) ->
  sample_object_fault w b n e ->
  load_s3_data w b n st =
  (if is_ClientError e then
     if String.eqb (error_code e) "NoSuchKey" then []
     else [(Main, StError (MsgS3Access e))]
   else [(Main, StError (MsgS3Load e))],
   st, Ok (None, None)).
Proof.
  intros Hclient Hfault.
  unfold load_s3_data. unfold bind at 1. rewrite Hclient.
  unfold try_except at 1 2. rewrite bind_lift.
  destruct Hfault as [Hg | [body [Hg [Hp | [df [Hp Hc]]]]]]; rewrite Hg.
  - destruct e; simpl; try reflexivity.
    destruct (String.eqb code "NoSuchKey"); reflexivity.
  - rewrite bind_lift, Hp.
    destruct e; simpl; try reflexivity.
    destruct (String.eqb code "NoSuchKey"); reflexivity.
  - rewrite bind_lift, Hp. unfold bind at 1.
    rewrite convert_time_pure, Hc.
    destruct e; simpl; try reflexivity.
    destruct (String.eqb code "NoSuchKey"); reflexivity.
Qed.

(** X4.  In local mode, when the sample file exists, a fault in reading
    it, in converting its times or in reading an existing bounds file
    yields (absent, absent) and the one message "Error loading data for
    device n". *)
Theorem local_file_fault_is_shown (w : World) (b : string) (n : Z)
    (st : State) (e : exn) :
  use_s3 w = false ->
  path_exists w (recent_data_file w n) = true ->
  local_file_fault w n e ->
  load_data w b n st = ([(Main, StError (MsgLoad n e))], st, Ok (None, None)).
Proof.
  intros Hlocal Hexists Hfault.
  unfold load_data. rewrite Hlocal. unfold try_except. rewrite Hexists.
  cbn [negb]. rewrite bind_lift.
  destruct Hfault as [Hr | [df [Hr [Hc | [d [Hc [Hb Hrb]]]]]]]; rewrite Hr.
  - reflexivity.
  - unfold bind at 1. rewrite convert_time_pure, Hc. reflexivity.
  - unfold bind at 1. rewrite convert_time_pure, Hc, Hb.
    unfold bind at 1. rewrite bind_lift, Hrb. reflexivity.
Qed.

(** X5.  In local mode, a sample file that reads and converts is returned
    with absent bounds when there is no bounds file -- which is no error
    and shows nothing -- and with the parsed bounds when the bounds file
    exists and reads. *)
Theorem local_load_succeeds (w : World) (b : string) (n : Z) (st : State)
    (df : Frame) (d : Data) :
  use_s3 w = false ->
  path_exists w (recent_data_file w n) = true ->
  read_csv_path w (recent_data_file w n) = Ok df ->
  converted w df = Ok d ->
  (path_exists w (bounds_file w n) = false ->
   load_data w b n st = ([], st, Ok (Some d, None))) /\
  (forall bounds,
     path_exists w (bounds_file w n) = true ->
     read_csv_path w (bounds_file w n) = Ok bounds ->
     load_data w b n st = ([], st, Ok (Some d, Some bounds))).
Proof.
  intros Hlocal Hexists Hread Hconv.
  unfold load_data. rewrite Hlocal. unfold try_except. rewrite Hexists.
  cbn [negb]. rewrite bind_lift, Hread.
  split; [intros Hb | intros bounds Hb Hrb]; rewrite Hb;
    unfold bind at 1; rewrite convert_time_pure, Hconv.
  - reflexivity.
  - unfold bind at 1. rewrite bind_lift, Hrb. reflexivity.
Qed.

(** X6.  In remote mode, with a client, a sample object that is fetched,
    parsed and converted and a bounds object that is fetched and parsed
    are returned together, and nothing is shown. *)
Theorem remote_load_succeeds (w : World) (b : string) (n : Z) (st : State)
    (body bounds_body : string) (df bounds : Frame) (d : Data) :
  get_s3_client w st = ([], st, Ok (Some tt)) ->
  get_object w b (data_key n) = Ok body ->
  read_csv_bytes w body = Ok df ->
  converted w df = Ok d ->
  get_object w b (bounds_key n) = Ok bounds_body ->
  read_csv_bytes w bounds_body = Ok bounds ->
  load_s3_data w b n st = ([], st, Ok (Some d, Some bounds)).
Proof.
  intros Hclient Hget Hparse Hconv Hgb Hpb.
  unfold load_s3_data. unfold bind at 1. rewrite Hclient.
  unfold try_except at 1 2. rewrite bind_lift, Hget, bind_lift, Hparse.
  unfold bind at 1. rewrite convert_time_pure, Hconv.
  unfold try_except, bind, lift, ret. rewrite Hgb, Hpb. reflexivity.
Qed.

(** * How a cycle ends *)

Lemma cycle_returns_after_discovery (w : World) (ns : list Z) :
  discovered w = Ok ns -> snd (run_cycle w) = Ok tt.
Proof.
  intro Hd. unfold run_cycle.
  destruct (script_run w ns Hd) as [b [notices [_ Hrun]]].
  rewrite Hrun. destruct ns; reflexivity.
Qed.

(** X7.  A run ends in an uncaught exception exactly when the computation
    of [device_numbers] (lines 22-24 and 199-216) does, and with that
    exception; once the devices are known, nothing in the per-device loop
    aborts the run. *)
Theorem cycle_outcome_is_discovery (w : World) :
  snd (run_cycle w) =
  match discovered w with
  | Ok _ => Ok tt
  | Raise e => Raise e
  end.
Proof.
  destruct (discovered w) as [ns|e] eqn:Hd.
  - apply (cycle_returns_after_discovery w ns Hd).
  - unfold run_cycle. destruct (script_aborts w e Hd) as [notices [_ Hrun]].
    rewrite Hrun. reflexivity.
Qed.

Lemma get_s3_client_cases (w : World) (st : State) :
  get_s3_client w st = ([], st, Ok (Some tt)) \/
  exists e,
    get_s3_client w st = ([(Main, StError (MsgS3ClientFailed e))], st, Ok None).
Proof.
  unfold get_s3_client, try_except. rewrite bind_lift.
  destruct (secret w "S3_KEY") as [k|e]; [|right; exists e; reflexivity].
  rewrite bind_lift.
  destruct (secret w "S3_SECRET") as [s|e]; [|right; exists e; reflexivity].
  rewrite bind_lift.
  destruct (boto3_client w k s) as [[]|e]; [left | right; exists e];
    reflexivity.
Qed.

(** X8.  In remote mode a run is aborted, with nothing shown, when the
    secret [S3_BUCKET_NAME] is missing (line 23 is outside any [try]);
    with that secret present the run always completes, whatever the
    client, the listing and the object keys do. *)
Theorem remote_cycle_needs_only_the_bucket (w : World) :
  use_s3 w = true ->
  (secrets w "S3_BUCKET_NAME" = None ->
   run_cycle w = ([], Raise (KeyError "S3_BUCKET_NAME"))) /\
  (secrets w "S3_BUCKET_NAME" <> None -> snd (run_cycle w) = Ok tt).
Proof.
  intro Hs3. split.
  - intro Hnone. unfold run_cycle, script, read_s3_bucket, secret.
    rewrite Hs3, Hnone. reflexivity.
  - intro Hsome.
    assert (Hd : exists ns, discovered w = Ok ns).
    { unfold discovered, read_s3_bucket, secret, discover. rewrite Hs3.
      destruct (secrets w "S3_BUCKET_NAME") as [b|]; [|congruence].
      rewrite bind_lift. unfold bind at 1.
      destruct (get_s3_client_cases w []) as [H | [e H]]; rewrite H;
        [|eexists; reflexivity].
      unfold try_except, bind, lift, result_of.
      destruct (list_objects_v2 w b listing_prefix) as [keys|e]; simpl;
        [|eexists; reflexivity].
      destruct (parse_device_numbers keys); eexists; reflexivity. }
    destruct Hd as [ns Hd]. exact (cycle_returns_after_discovery w ns Hd).
Qed.

(** X9.  In remote mode, when the client cannot be created, or when the
    listing or the reading of a device number off a listed key raises,
    the page is that one error followed by the "No device data found"
    warning, and the run ends without an uncaught exception. *)
Theorem remote_discovery_fault_is_shown (w : World) (b : string) (e : exn) :
  use_s3 w = true ->
  secrets w "S3_BUCKET_NAME" = Some b ->
  (get_s3_client w [] = ([(Main, StError (MsgS3ClientFailed e))], [], Ok None) ->
   run_cycle w = ([(Main, StError (MsgS3ClientFailed e));
                   (Main, StWarning MsgNoDevices)], Ok tt)) /\
  (get_s3_client w [] = ([], [], Ok (Some tt)) ->
   remote_listing_fault w b e ->
   run_cycle w = ([(Main, StError (MsgS3List e));
                   (Main, StWarning MsgNoDevices)], Ok tt)).
Proof.
  intros Hs3 Hb.
  unfold run_cycle, script, read_s3_bucket, secret, discover.
  rewrite Hs3, Hb, bind_lift.
  split; [intro Hc | intros Hc Hf]; unfold bind at 1; unfold bind at 1;
    rewrite Hc; [reflexivity|].
  unfold try_except. rewrite bind_lift.
  destruct Hf as [Hl | [keys [Hl Hp]]]; rewrite Hl; [reflexivity|].
  unfold lift. rewrite Hp. reflexivity.
Qed.

(** * The per-device handlers *)

Lemma emits_only_try_returns {A : Type} (Q : event -> Prop) (m : M A)
    (c : exn -> bool) (h : exn -> M A) :
  returns m -> emits_only Q m -> emits_only Q (try_except m c h).
Proof.
  intros Hr Hm st. rewrite run_try. destruct (Hr st) as [a Ha]. rewrite Ha.
  apply Hm.
Qed.

Lemma emits_only_for_enumerate {A : Type} (Q : event -> Prop)
    (body : nat -> A -> M unit) (xs : list A) :
  (forall i x, emits_only Q (body i x)) ->
  forall i, emits_only Q (for_enumerate body i xs).
Proof.
  intro Hb. induction xs as [|x xs IH]; intro i; simpl.
  - apply emits_only_ret.
  - apply emits_only_bind; [apply Hb | intro; apply IH].
Qed.

(** A property of every call of a page follows from the same property of
    the messages of discovery, of the three calls of the main area and of
    each device's column. *)
Lemma emits_only_script (Q : event -> Prop) (w : World) :
  (forall ev, is_notice ev -> Q ev) ->
  Q (Main, StWarning MsgNoDevices) ->
  Q (Main, TimeSleep (refresh_interval w)) ->
  Q (Main, StRerun) ->
  (forall b i n, emits_only Q (device_region w b i n)) ->
  Forall Q (page_of w).
Proof.
  intros Hn Hw Hs Hr Hd.
  assert (H : emits_only Q (script w)).
  { unfold script.
    apply emits_only_bind;
      [unfold read_s3_bucket; destruct (use_s3 w);
       [apply emits_only_lift | apply emits_only_ret] | intro b].
    apply emits_only_bind;
      [apply (emits_only_weaken is_notice); [exact Hn | apply discover_notices]
      | intro ns].
    apply emits_only_bind; [apply emits_only_set | intro].
    destruct ns as [|n ns]; [apply emits_only_emit; exact Hw|].
    apply emits_only_bind;
      [apply emits_only_for_enumerate; intros; apply Hd | intro].
    apply emits_only_bind; [apply emits_only_emit; exact Hs | intro].
    apply emits_only_emit; exact Hr. }
  specialize (H []). unfold page_of, run_cycle, trace_of in *.
  destruct (script w []) as [[page st] r]. exact H.
Qed.

Lemma device_region_inner_returns (w : World) (b : string) (i : nat) (n : Z) :
  returns
    (loaded <- load_data w b n ;;
     let '(data, bounds) := loaded in
     match data with
     | Some d =>
         if has_rows data then
           try_except (show_device w i n d bounds) any_exception
             (fun e => emit (Col i) (StError (MsgProcessingData n e)))
         else emit (Col i) (StWarning (MsgNoValidData n))
     | None => emit (Col i) (StWarning (MsgNoValidData n))
     end).
Proof.
  apply returns_bind; [apply load_data_returns | intros [data bounds]].
  destruct data as [d|]; [|apply returns_emit].
  destruct (has_rows (Some d)); [|apply returns_emit].
  apply returns_try_any. intro e. apply returns_emit.
Qed.

Ltac emits_false :=
  repeat first
    [ apply emits_only_bind; [|intro]
    | apply emits_only_try; [|intro]
    | apply emits_only_lift
    | apply emits_only_ret
    | apply emits_only_raise
    | apply emits_only_get
    | apply emits_only_set
    | apply emits_only_emit; reflexivity
    | split_match ].

(** X10.  No page ever shows "Error processing Device n": [load_data]
    catches what it raises and the inner [try] covers the rest, so the
    outer handler of lines 283-285 is never entered. *)
Theorem outer_handler_is_never_reached (w : World) :
  existsb is_outer_error (page_of w) = false.
Proof.
  assert (H : Forall (fun ev => is_outer_error ev = false) (page_of w)).
  { apply emits_only_script; try reflexivity.
    - intros [[| |] [[]| | | | | | |]]; simpl; try contradiction; reflexivity.
    - intros b i n. unfold device_region.
      apply emits_only_try_returns; [apply device_region_inner_returns|].
      apply emits_only_bind.
      + apply (emits_only_weaken is_notice); [|apply load_data_notices].
        intros [[| |] [[]| | | | | | |]]; simpl; try contradiction;
          reflexivity.
      + intros [data bounds]. destruct data as [d|];
          [|apply emits_only_emit; reflexivity].
        destruct (has_rows (Some d)); [|apply emits_only_emit; reflexivity].
        apply emits_only_try; [|intro; apply emits_only_emit; reflexivity].
        unfold show_device, check_bounds, alert.
        repeat (apply emits_only_bind; [apply emits_only_lift | intro]).
        apply emits_only_bind; [apply emits_only_emit; reflexivity | intro].
        apply emits_only_bind; [apply emits_only_emit; reflexivity | intro].
        apply emits_only_bind; [emits_false | intro].
        apply emits_only_bind; [apply create_plot_silent | intro].
        apply emits_only_emit; reflexivity. }
  induction H as [|ev page Hev _ IH]; [reflexivity|].
  simpl. rewrite Hev, IH. reflexivity.
Qed.

(** * The audio cue, again *)

Ltac emits_cue :=
  repeat first
    [ apply emits_only_bind; [|intro]
    | apply emits_only_try; [|intro]
    | apply emits_only_lift
    | apply emits_only_ret
    | apply emits_only_raise
    | apply emits_only_get
    | apply emits_only_set
    | apply emits_only_emit;
      first [ let H := fresh in intro H; discriminate H
            | intros _; eexists; reflexivity ]
    | split_match ].

(** Every audio element of a page is the warning file, played at once and
    on loop, in some device's column. *)
Lemma every_cue_is_the_warning_loop (w : World) :
  Forall (fun ev => is_audio ev = true -> exists i, ev = warning_loop w i)
         (page_of w).
Proof.
  apply emits_only_script; try (intro H; discriminate H).
  - intros [[| |] [[]| | | | | | |]]; simpl; try contradiction;
      intros _ H; discriminate H.
  - intros b i n. unfold device_region.
    apply emits_only_try;
      [|intro; apply emits_only_emit; intro H; discriminate H].
    apply emits_only_bind.
    + apply (emits_only_weaken is_notice); [|apply load_data_notices].
      intros [[| |] [[]| | | | | | |]]; simpl; try contradiction;
        intros _ H; discriminate H.
    + intros [data bounds]. destruct data as [d|];
        [|apply emits_only_emit; intro H; discriminate H].
      destruct (has_rows (Some d));
        [|apply emits_only_emit; intro H; discriminate H].
      apply emits_only_try;
        [|intro; apply emits_only_emit; intro H; discriminate H].
      unfold show_device, check_bounds, alert.
      repeat (apply emits_only_bind; [apply emits_only_lift | intro]).
      apply emits_only_bind;
        [apply emits_only_emit; intro H; discriminate H | intro].
      apply emits_only_bind;
        [apply emits_only_emit; intro H; discriminate H | intro].
      apply emits_only_bind; [emits_cue | intro].
      apply emits_only_bind; [apply create_plot_silent | intro].
      apply emits_only_emit; intro H; discriminate H.
Qed.

(** C4.  In a cycle in which at least one device shows an alert banner,
    the audio cue -- [warning.wav] of the artifacts directory, played at
    once and on loop -- is started exactly once: the page holds that one
    audio element and no other, and it sits in the column of the first
    device that alerts. *)
Theorem audio_cue_starts_once (w : World) :
  alert_banners (page_of w) <> [] ->
  exists i,
    audios (page_of w) = [warning_loop w i] /\
    option_map fst (hd_error (alert_banners (page_of w))) = Some (Col i).
Proof.
  intro Hb. destruct (audio_cue_count w Hb) as [Hlen Hcol].
  destruct (audios (page_of w)) as [|a [|a' l]] eqn:Ea; try discriminate Hlen.
  assert (Hin : In a (audios (page_of w))) by (rewrite Ea; left; reflexivity).
  unfold audios in Hin. apply filter_In in Hin. destruct Hin as [Hin Ha].
  pose proof (every_cue_is_the_warning_loop w) as Hall.
  rewrite Forall_forall in Hall. destruct (Hall a Hin Ha) as [i ->].
  exists i. split; [reflexivity|]. rewrite <- Hcol. reflexivity.
Qed.

Lemma audio_cue_starts_once_example :
  List.length (alert_banners (page_of world_two_alerts)) = 3%nat /\
  audios (page_of world_two_alerts)
  = [(Col 1, StAudio "/app/artifacts/warning.wav" true true)].
Proof.
  assert (H : alert_banners (page_of world_two_alerts) <> [])
    by (vm_compute; discriminate).
  destruct (audio_cue_starts_once world_two_alerts H) as [i [Ha Hc]].
  split; [vm_compute; reflexivity|].
  rewrite Ha. vm_compute in Hc. injection Hc as <-. reflexivity.
Defined.

(** X11.  A sample window that is present with zero rows is treated as no
    data: the column shows the "No valid data available" warning alone
    and the bounds are not looked at. *)
Theorem empty_sample_window_is_no_data (w : World) (b : string) (i : nat)
    (n : Z) (st st' : State) (tr : list event) (d : Data)
    (bounds : option Frame) :
  load_data w b n st = (tr, st', Ok (Some d, bounds)) ->
  rows (d_frame d) = [] ->
  device_region w b i n st = ([no_valid_data i n], st, Ok tt).
Proof.
  intros Hload Hrows.
  pose proof (load_data_keeps w b n st) as Hk. rewrite Hload in Hk.
  rewrite state_of_run in Hk. subst st'.
  pose proof (load_data_silent w b n st (Some d, bounds)) as Hs.
  rewrite Hload, trace_of_run in Hs.
  rewrite (Hs eq_refl ltac:(discriminate)) in Hload.
  rewrite (device_region_run _ _ _ _ _ _ _ _ _ Hload).
  unfold has_rows, empty. rewrite Hrows.
  destruct (columns (d_frame d)); reflexivity.
Qed.

(** * The list [audio_elements] *)

Lemma tracks_quiet {A : Type} (w : World) (m : M A) : quiet m -> tracks w m.
Proof.
  intros [Hk He] st. rewrite Hk.
  destruct (calm_filters _ (He st)) as [-> _]. simpl.
  rewrite app_nil_r. reflexivity.
Qed.

Lemma tracks_bind {A B : Type} (w : World) (m : M A) (k : A -> M B) :
  tracks w m -> (forall a, tracks w (k a)) -> tracks w (bind m k).
Proof.
  intros Hm Hk st. rewrite run_bind. specialize (Hm st).
  destruct (result_of (m st)) as [a|e]; [|exact Hm].
  rewrite state_of_run, trace_of_run.
  unfold audios in *. rewrite filter_app, length_app, repeat_app, app_assoc.
  rewrite <- Hm. apply Hk.
Qed.

Lemma tracks_try {A : Type} (w : World) (m : M A) (c : exn -> bool)
    (h : exn -> M A) :
  tracks w m -> (forall e, tracks w (h e)) -> tracks w (try_except m c h).
Proof.
  intros Hm Hh st. rewrite run_try. specialize (Hm st).
  destruct (result_of (m st)) as [a|e]; [exact Hm|].
  destruct (c e); [|exact Hm].
  rewrite state_of_run, trace_of_run.
  unfold audios in *. rewrite filter_app, length_app, repeat_app, app_assoc.
  rewrite <- Hm. apply Hh.
Qed.

Lemma alert_tracks (w : World) (i : nat) (delay : float64) (oob late : bool) :
  tracks w (alert w i delay oob late).
Proof.
  intros [|a st]; destruct oob, late; simpl; rewrite ?app_nil_r; reflexivity.
Qed.

Lemma device_region_tracks (w : World) (b : string) (i : nat) (n : Z) :
  tracks w (device_region w b i n).
Proof.
  assert (Hemit : forall rg u, calm (rg, u) -> tracks w (emit rg u))
    by (intros; apply tracks_quiet; apply quiet_emit; assumption).
  unfold device_region.
  apply tracks_try; [|intro; apply Hemit; split; reflexivity].
  apply tracks_bind; [apply tracks_quiet; apply load_data_quiet|].
  intros [data bounds].
  destruct data as [d|]; [|apply Hemit; split; reflexivity].
  destruct (has_rows (Some d)); [|apply Hemit; split; reflexivity].
  apply tracks_try; [|intro; apply Hemit; split; reflexivity].
  unfold show_device.
  repeat (apply tracks_bind; [apply tracks_quiet; apply quiet_lift | intro]).
  do 2 (apply tracks_bind; [apply Hemit; split; reflexivity | intro]).
  apply tracks_bind.
  - unfold check_bounds.
    destruct bounds as [bf|]; [|apply tracks_quiet; apply quiet_ret].
    destruct (negb (empty bf)); [|apply tracks_quiet; apply quiet_ret].
    repeat (apply tracks_bind; [apply tracks_quiet; apply quiet_lift | intro]).
    apply alert_tracks.
  - intro. apply tracks_bind;
      [apply tracks_quiet; apply create_plot_quiet | intro].
    apply Hemit; split; reflexivity.
Qed.

Lemma loop_tracks (w : World) (b : string) (ns : list Z) :
  forall i, tracks w (for_enumerate (device_region w b) i ns).
Proof.
  induction ns as [|n ns IH]; intro i; simpl.
  - apply tracks_quiet. apply quiet_ret.
  - apply tracks_bind; [apply device_region_tracks | intro; apply IH].
Qed.

(** X12.  At the end of a run [audio_elements] holds one entry per audio
    cue started in it, which is at most one; and a page without an alert
    banner has no audio cue. *)
Theorem audio_elements_count_the_cue (w : World) :
  state_of (script w [])
  = repeat (warning_wav w) (List.length (audios (page_of w))) /\
  (List.length (audios (page_of w)) <= 1)%nat /\
  (alert_banners (page_of w) = [] -> audios (page_of w) = []).
Proof.
  unfold page_of, run_cycle.
  destruct (discovered w) as [ns|e] eqn:Hd.
  - destruct (script_run w ns Hd) as [b [notices [Hn Hrun]]].
    rewrite Hrun.
    assert (Hcalm : Forall calm notices)
      by (eapply Forall_impl; [exact notice_calm | exact Hn]).
    destruct (calm_filters notices Hcalm) as [Ha Hb].
    destruct ns as [|n ns]; simpl; unfold audios, alert_banners in *;
      rewrite !filter_app, ?Ha, ?Hb; simpl.
    + repeat split. lia.
    + rewrite !app_nil_r.
      pose proof (loop_tracks w b (n :: ns) 0%nat []) as Ht.
      destruct (loop_cues w b (n :: ns) 0%nat []) as [_ H].
      unfold loop, audios, alert_banners in *.
      split; [exact Ht|].
      destruct (H eq_refl) as [[_ [Hno _]] | [_ [a [b' [rest [Ha' [Hb' _]]]]]]].
      * rewrite Hno. simpl. split; [lia | reflexivity].
      * rewrite Ha', Hb'. simpl. split; [lia | discriminate].
  - destruct (script_aborts w e Hd) as [notices [Hn Hrun]].
    rewrite Hrun. simpl.
    assert (Hcalm : Forall calm notices)
      by (eapply Forall_impl; [exact notice_calm | exact Hn]).
    destruct (calm_filters notices Hcalm) as [Ha _].
    unfold audios in *. rewrite Ha. simpl. repeat split. lia.
Qed.

(** * Isolation of the columns *)

Lemma steady_bind {A B : Type} (m : M A) (k : A -> M B) :
  steady m -> (forall a, steady (k a)) -> steady (bind m k).
Proof.
  intros Hm Hk st st'. rewrite !run_bind.
  destruct (Hm st st') as [Ht Hr]. rewrite <- Hr.
  destruct (result_of (m st)) as [a|e].
  - rewrite !trace_of_run, !result_of_run.
    rewrite !filter_app, Ht.
    destruct (Hk a (state_of (m st)) (state_of (m st'))) as [Ht' Hr'].
    rewrite Ht', Hr'. split; reflexivity.
  - split; [exact Ht | reflexivity].
Qed.

Lemma steady_try {A : Type} (m : M A) (c : exn -> bool) (h : exn -> M A) :
  steady m -> (forall e, steady (h e)) -> steady (try_except m c h).
Proof.
  intros Hm Hh st st'. rewrite !run_try.
  destruct (Hm st st') as [Ht Hr]. rewrite <- Hr.
  destruct (result_of (m st)) as [a|e] eqn:E.
  - rewrite (run_eta (m st)), (run_eta (m st')), <- Hr, E.
    split; [exact Ht | reflexivity].
  - destruct (c e).
    + rewrite !trace_of_run, !result_of_run.
      rewrite !filter_app, Ht.
      destruct (Hh e (state_of (m st)) (state_of (m st'))) as [Ht' Hr'].
      rewrite Ht', Hr'. split; reflexivity.
    + rewrite (run_eta (m st)), (run_eta (m st')), <- Hr, E.
      split; [exact Ht | reflexivity].
Qed.

Lemma steady_lift {A : Type} (r : result A) : steady (lift r).
Proof. intros st st'. split; reflexivity. Qed.

Lemma steady_ret {A : Type} (a : A) : steady (ret a).
Proof. intros st st'. split; reflexivity. Qed.

Lemma steady_emit (rg : region) (u : ui) : steady (emit rg u).
Proof. intros st st'. split; reflexivity. Qed.

Lemma steady_alert (w : World) (i : nat) (delay : float64) (oob late : bool) :
  steady (alert w i delay oob late).
Proof.
  intros [|a st] [|a' st']; destruct oob, late; split; reflexivity.
Qed.

Ltac steadies :=
  repeat first
    [ apply steady_bind; [|intro]
    | apply steady_try; [|intro]
    | apply steady_lift
    | apply steady_ret
    | apply steady_emit
    | apply steady_alert
    | intros ? ?; split; reflexivity
    | split_match ].

(** X13.  What a device's column shows, the audio cue apart, and whether
    its processing ends normally do not depend on [audio_elements], that
    is on what happened to the devices before it. *)
Theorem device_column_is_isolated (w : World) (b : string) (i : nat) (n : Z) :
  steady (device_region w b i n).
Proof.
  unfold device_region, load_data, load_s3_data, get_s3_client,
    convert_time, show_device, check_bounds, create_plot.
  steadies.
Qed.

(** * A device's column *)

Lemma create_plot_steady (w : World) (d : Data) (bounds : option Frame)
    (n : Z) :
  steady (create_plot w d bounds n).
Proof. unfold create_plot. steadies. Qed.

Lemma create_plot_pure (w : World) (d : Data) (bounds : option Frame) (n : Z)
    (st : State) :
  create_plot w d bounds n st = ([], st, plotted w d bounds n).
Proof.
  pose proof (create_plot_quiet w d bounds n) as [Hk _].
  assert (Hs : trace_of (create_plot w d bounds n st) = []).
  { pose proof (create_plot_silent w d bounds n (fun _ => False) st) as H.
    destruct (trace_of (create_plot w d bounds n st)); [reflexivity|].
    inversion H; contradiction. }
  destruct (create_plot_steady w d bounds n st []) as [_ Hr].
  rewrite (run_eta (create_plot w d bounds n st)), Hs, Hk, Hr. reflexivity.
Qed.

Lemma show_device_run (w : World) (i : nat) (n : Z) (d : Data)
    (bounds : option Frame) (current_freq : cell) (shown delay : float64)
    (st : State) :
  reads w i d bounds current_freq shown delay ->
  show_device w i n d bounds st =
  let x := check_bounds w i bounds current_freq delay st in
  match result_of x with
  | Raise e => (metrics i n shown delay ++ trace_of x, state_of x, Raise e)
  | Ok _ =>
      match plotted w d bounds n with
      | Ok fig =>
          (metrics i n shown delay ++ trace_of x
             ++ [(Col i, StPlotlyChart fig)],
           state_of x, Ok tt)
      | Raise e =>
          (metrics i n shown delay ++ trace_of x, state_of x, Raise e)
      end
  end.
Proof.
  intros [filtered [last_time [tz_col [timezone
            [H1 [H2 [H3 [H4 [H5 [H6 H7]]]]]]]]]].
  unfold show_device.
  rewrite bind_lift, H1, bind_lift, H2, bind_lift, H3, bind_lift, H4,
    bind_lift, H5, bind_lift, H6, bind_lift, H7.
  rewrite bind_emit, (run_eta (bind (emit (Sub i 1) _) _ st)), bind_emit.
  rewrite !trace_of_run, !state_of_run, !result_of_run.
  rewrite run_bind. cbv zeta.
  destruct (result_of (check_bounds w i bounds current_freq delay st))
    as [[]|e]; [|reflexivity].
  rewrite !trace_of_run, !state_of_run, !result_of_run.
  rewrite run_bind, create_plot_pure.
  rewrite !trace_of_run, !state_of_run, !result_of_run.
  destruct (plotted w d bounds n) as [fig|e]; [|rewrite app_nil_r];
    reflexivity.
Qed.

Lemma alert_returns (w : World) (i : nat) (delay : float64)
    (oob late : bool) (st : State) :
  result_of (alert w i delay oob late st) = Ok tt.
Proof. destruct st as [|a st], oob, late; reflexivity. Qed.

Lemma check_bounds_raises (w : World) (i : nat) (b : Frame)
    (current_freq min_freq max_freq : cell) (delay : float64) (e : exn)
    (st : State) :
  empty b = false ->
  first_row b "min_freq" = Ok min_freq ->
  first_row b "max_freq" = Ok max_freq ->
  freq_out_of_bounds current_freq min_freq max_freq = Raise e ->
  check_bounds w i (Some b) current_freq delay st = ([], st, Raise e).
Proof.
  unfold first_row, check_bounds. intros -> Hmin Hmax Hoob. simpl.
  rewrite bind_lift.
  destruct (getitem b "min_freq") as [min_col|]; [|discriminate].
  rewrite bind_lift, Hmin, bind_lift.
  destruct (getitem b "max_freq") as [max_col|]; [|discriminate].
  rewrite bind_lift, Hmax, bind_lift, Hoob. reflexivity.
Qed.

(** X14.  For a device whose readings and bounds go through, the column
    shows the two metrics, then the banners (with the cue when it is the
    first alert), then the chart; when the chart cannot be built the
    metrics, the banners and the cue stay, [audio_elements] keeps its new
    entry, and the exception goes to the inner handler. *)
Theorem checked_device_column (w : World) (i : nat) (n : Z) (d : Data)
    (b : Frame) (current_freq min_freq max_freq : cell)
    (shown delay : float64) (oob : bool) (st : State) :
  reads w i d (Some b) current_freq shown delay ->
  empty b = false ->
  first_row b "min_freq" = Ok min_freq ->
  first_row b "max_freq" = Ok max_freq ->
  freq_out_of_bounds current_freq min_freq max_freq = Ok oob ->
  show_device w i n d (Some b) st =
  match plotted w d (Some b) n with
  | Ok fig =>
      (metrics i n shown delay
         ++ trace_of (alert w i delay oob
                        (delay_too_large delay (delay_threshold w)) st)
         ++ [(Col i, StPlotlyChart fig)],
       state_of (alert w i delay oob
                   (delay_too_large delay (delay_threshold w)) st),
       Ok tt)
  | Raise e =>
      (metrics i n shown delay
         ++ trace_of (alert w i delay oob
                        (delay_too_large delay (delay_threshold w)) st),
       state_of (alert w i delay oob
                   (delay_too_large delay (delay_threshold w)) st),
       Raise e)
  end.
Proof.
  intros Hreads Hb Hmin Hmax Hoob.
  rewrite (show_device_run w i n d (Some b) _ _ _ st Hreads). cbv zeta.
  rewrite (check_bounds_run w i b _ _ _ delay _ st Hb Hmin Hmax Hoob).
  rewrite alert_returns. reflexivity.
Qed.

Lemma SFltb_nan_r (x : float64) : SFltb x S754_nan = false.
Proof. destruct x; reflexivity. Qed.

(** X15.  A NaN frequency with a NaN delay raises no alert against numeric
    bounds: the success banner is shown.  Bounds that are both NaN never
    give the frequency banner, whatever the frequency. *)
Theorem nan_never_alerts (w : World) (i : nat) (b : Frame)
    (mn mx : float64) (st : State) :
  empty b = false ->
  first_row b "min_freq" = Ok (CNum mn) ->
  first_row b "max_freq" = Ok (CNum mx) ->
  check_bounds w i (Some b) (CNum S754_nan) S754_nan st
  = ([(Col i, StSuccess MsgWithinBounds)], st, Ok tt) /\
  (mn = S754_nan -> mx = S754_nan ->
   forall v delay,
     existsb is_freq_banner
       (trace_of (check_bounds w i (Some b) (CNum v) delay st)) = false).
Proof.
  intros Hb Hmin Hmax. split.
  - rewrite (check_bounds_run w i b _ _ _ S754_nan false st Hb Hmin Hmax).
    + reflexivity.
    + rewrite freq_out_of_bounds_numbers, SFltb_nan_r. reflexivity.
  - intros -> -> v delay.
    rewrite (check_bounds_run w i b _ _ _ delay false st Hb Hmin Hmax).
    + apply alert_banners_shown.
    + rewrite freq_out_of_bounds_numbers, SFltb_nan_r. reflexivity.
Qed.

(** X16.  A [min_freq] that is text makes the comparison of line 258 raise
    [TypeError] with no banner shown.  A [max_freq] that is text raises
    only when the frequency is not below [min_freq]: [or] does not
    evaluate its right operand when the left one holds, and the alert
    then fires as for numeric bounds. *)
Theorem text_bounds_raise (w : World) (i : nat) (b : Frame) (v : float64)
    (s : string) (delay : float64) (st : State) :
  empty b = false ->
  (forall mx,
     first_row b "min_freq" = Ok (CStr s) ->
     first_row b "max_freq" = Ok mx ->
     check_bounds w i (Some b) (CNum v) delay st = ([], st, Raise TypeError)) /\
  (forall mn,
     first_row b "min_freq" = Ok (CNum mn) ->
     first_row b "max_freq" = Ok (CStr s) ->
     check_bounds w i (Some b) (CNum v) delay st =
     if SFltb v mn
     then alert w i delay true (delay_too_large delay (delay_threshold w)) st
     else ([], st, Raise TypeError)).
Proof.
  intro Hb. split.
  - intros mx Hmin Hmax.
    apply (check_bounds_raises w i b _ _ _ delay _ st Hb Hmin Hmax).
    reflexivity.
  - intros mn Hmin Hmax. destruct (SFltb v mn) eqn:E.
    + apply (check_bounds_run w i b _ _ _ delay _ st Hb Hmin Hmax).
      unfold freq_out_of_bounds, cell_lt. rewrite E. reflexivity.
    + apply (check_bounds_raises w i b _ _ _ delay _ st Hb Hmin Hmax).
      unfold freq_out_of_bounds, cell_lt. rewrite E. reflexivity.
Qed.

(** * The figure *)

Lemma bind_assoc {A B C : Type} (m : M A) (f : A -> M B) (g : B -> M C)
    (st : State) :
  bind (bind m f) g st = bind m (fun a => bind (f a) g) st.
Proof.
  unfold bind. destruct (m st) as [[tr st'] [a|e]]; [|reflexivity].
  destruct (f a st') as [[tr1 st1] [b|e]]; [|reflexivity].
  destruct (g b st1) as [[tr2 st2] r]. rewrite app_assoc. reflexivity.
Qed.

Lemma first_row_has_rows (b : Frame) (c : string) (x : cell) :
  first_row b c = Ok x -> rows b <> [].
Proof.
  unfold first_row, getitem.
  destruct (index_of c (columns b)); [|discriminate].
  destruct (rows b); [discriminate | discriminate].
Qed.

Lemma first_row_of_column (b : Frame) (c : string) :
  has_column b c = true -> rows b <> [] -> exists x, first_row b c = Ok x.
Proof.
  unfold has_column, first_row, getitem.
  destruct (index_of c (columns b)); [|discriminate].
  destruct (rows b) as [|r rs]; [congruence|].
  intros _ _. eexists. reflexivity.
Qed.

(** X17.  A figure that [create_plot] returns bears the device number and
    the two series; without bounds it has nothing else and an automatic
    y-range; with bounds the bounds have a row, the figure has the two
    reference lines and the three bands -- the red ones reaching to the
    minimum and maximum of the filtered series -- and its y-range is
    fixed exactly when the bounds have both [y_min] and [y_max]. *)
Theorem figure_follows_bounds (w : World) (d : Data) (bounds : option Frame)
    (n : Z) (fig : Figure) :
  plotted w d bounds n = Ok fig ->
  fig_title_device fig = n /\
  exists freq freq_filtered,
    getitem (d_frame d) "freq" = Ok freq /\
    getitem (d_frame d) "freq_filtered" = Ok freq_filtered /\
    match bounds with
    | None =>
        fig_items fig = series_of d freq freq_filtered /\
        fig_yrange fig = None
    | Some b =>
        rows b <> [] /\
        (exists min_freq max_freq lo hi,
           first_row b "min_freq" = Ok min_freq /\
           first_row b "max_freq" = Ok max_freq /\
           series_min w freq_filtered = Ok lo /\
           series_max w freq_filtered = Ok hi /\
           fig_items fig
           = series_of d freq freq_filtered
               ++ bands min_freq max_freq lo hi) /\
        (has_column b "y_min" && has_column b "y_max" = false ->
         fig_yrange fig = None) /\
        (has_column b "y_min" && has_column b "y_max" = true ->
         exists y_min y_max,
           first_row b "y_min" = Ok y_min /\
           first_row b "y_max" = Ok y_max /\
           fig_yrange fig = Some (y_min, y_max))
    end.
Proof.
  unfold plotted, create_plot. rewrite bind_lift.
  destruct (getitem (d_frame d) "freq") as [freq|]; [|discriminate].
  rewrite bind_lift.
  destruct (getitem (d_frame d) "freq_filtered") as [filtered|];
    [|discriminate].
  destruct bounds as [b|].
  - rewrite !bind_assoc, bind_lift.
    unfold first_row.
    destruct (getitem b "min_freq") as [min_col|] eqn:Emin; [|discriminate].
    rewrite !bind_assoc, bind_lift.
    destruct (iloc_first min_col) as [mn|] eqn:Emn; [|discriminate].
    rewrite !bind_assoc, bind_lift.
    destruct (getitem b "max_freq") as [max_col|] eqn:Emax; [|discriminate].
    rewrite !bind_assoc, bind_lift.
    destruct (iloc_first max_col) as [mx|] eqn:Emx; [|discriminate].
    rewrite !bind_assoc, bind_lift.
    destruct (series_min w filtered) as [lo|] eqn:Elo; [|discriminate].
    rewrite !bind_assoc, bind_lift.
    destruct (series_max w filtered) as [hi|] eqn:Ehi; [|discriminate].
    rewrite bind_ret.
    assert (Hrows : rows b <> []).
    { apply (first_row_has_rows b "min_freq" mn). unfold first_row.
      rewrite Emin. exact Emn. }
    assert (Hne : empty b = false).
    { unfold empty. unfold getitem in Emin.
      destruct (columns b); [discriminate|].
      destruct (rows b); [congruence | reflexivity]. }
    rewrite Hne. cbn [negb andb].
    destruct (has_column b "y_min" && has_column b "y_max") eqn:Ey.
    + apply andb_true_iff in Ey. destruct Ey as [Ey1 Ey2].
      destruct (first_row_of_column b "y_min" Ey1 Hrows) as [y1 Hy1].
      destruct (first_row_of_column b "y_max" Ey2 Hrows) as [y2 Hy2].
      unfold first_row in Hy1, Hy2.
      rewrite !bind_assoc, bind_lift.
      destruct (getitem b "y_min") as [c1|]; [|discriminate].
      rewrite !bind_assoc, bind_lift, Hy1.
      rewrite !bind_assoc, bind_lift.
      destruct (getitem b "y_max") as [c2|]; [|discriminate].
      rewrite !bind_assoc, bind_lift, Hy2, !bind_ret.
      intro H. injection H as <-. simpl. split; [reflexivity|].
      exists freq, filtered. repeat split; try assumption.
      * exists mn, mx, lo, hi. repeat split; assumption.
      * discriminate.
      * intros _. exists y1, y2. repeat split; assumption.
    + rewrite !bind_ret. intro H. injection H as <-. simpl.
      split; [reflexivity|].
      exists freq, filtered. repeat split; try assumption.
      * exists mn, mx, lo, hi. repeat split; assumption.
      * discriminate.
  - rewrite !bind_ret. intro H. injection H as <-. simpl.
    split; [reflexivity|]. exists freq, filtered. repeat split.
Qed.

(** * The dashboard over several cycles *)

Lemma reruns_when_devices_found (w : World) :
  existsb is_rerun (page_of w) = finds_devices w.
Proof.
  unfold finds_devices, page_of, run_cycle.
  destruct (discovered w) as [ns|e] eqn:Hd.
  - destruct (script_run w ns Hd) as [b [notices [Hn Hrun]]]. rewrite Hrun.
    destruct (notices_do_not_restart notices Hn) as [_ [Hr _]].
    destruct ns as [|n ns]; simpl; rewrite !existsb_app, ?Hr; simpl.
    + reflexivity.
    + rewrite !orb_true_r. reflexivity.
  - destruct (script_aborts w e Hd) as [notices [Hn Hrun]]. rewrite Hrun.
    destruct (notices_do_not_restart notices Hn) as [_ [Hr _]]. exact Hr.
Qed.

(** X18.  The dashboard runs one cycle after another as long as discovery
    finds a device, and stops after the first cycle whose discovery finds
    none or raises: the later states of the world are never rendered. *)
Theorem dashboard_runs_while_devices_are_found (before : list World) :
  forallb finds_devices before = true ->
  dashboard before = map page_of before /\
  (forall w after,
     finds_devices w = false ->
     dashboard (before ++ w :: after) = map page_of before ++ [page_of w]).
Proof.
  induction before as [|w0 ws IH]; intro H; simpl.
  - split; [reflexivity|]. intros w after Hw.
    rewrite reruns_when_devices_found, Hw. reflexivity.
  - simpl in H. apply andb_true_iff in H. destruct H as [H0 Hs].
    destruct (IH Hs) as [IH1 IH2].
    rewrite reruns_when_devices_found, H0. split.
    + rewrite IH1. reflexivity.
    + intros w after Hw. rewrite (IH2 w after Hw). reflexivity.
Qed.

Lemma load_data_all_or_nothing_example :
  ([] : State) = [] /\
  (Some (sample_data 100 98) = None -> Some bounds_frame = None) /\
  (Some (sample_data 100 98) <> None -> ([] : list event) = []).
Proof.
  apply (load_data_all_or_nothing world_in_bounds "" 1 [] [] []
           (Some (sample_data 100 98)) (Some bounds_frame)).
  reflexivity.
Defined.

Lemma remote_sample_fault_example :
  load_s3_data world_s3_no_bounds "telemetry" 2 [] = ([], [], Ok (None, None)).
Proof.
  apply (remote_sample_fault world_s3_no_bounds "telemetry" 2 []
           (ClientError "NoSuchKey")); [reflexivity|].
  left. reflexivity.
Defined.

Lemma local_file_fault_is_shown_example :
  load_data world_bad_samples "" 1 []
  = ([(Main, StError (MsgLoad 1 (OtherError "ParserError")))], [],
     Ok (None, None)).
Proof.
  apply (local_file_fault_is_shown world_bad_samples "" 1 []
           (OtherError "ParserError")); try reflexivity.
  left. reflexivity.
Defined.

Lemma local_load_succeeds_example :
  load_data world_no_bounds "" 1 [] = ([], [], Ok (Some (sample_data 100 98), None)).
Proof.
  apply (local_load_succeeds world_no_bounds "" 1 [] (sample_frame 100 98)
           (sample_data 100 98)); reflexivity.
Defined.

Lemma remote_load_succeeds_example :
  load_s3_data world_s3_in_bounds "telemetry" 1 []
  = ([], [], Ok (Some (sample_data 100 98), Some bounds_frame)).
Proof.
  apply (remote_load_succeeds world_s3_in_bounds "telemetry" 1 []
           "samples" "bounds" (sample_frame 100 98)); reflexivity.
Defined.

Lemma remote_cycle_needs_only_the_bucket_example :
  snd (run_cycle world_s3_no_bounds) = Ok tt.
Proof.
  apply (remote_cycle_needs_only_the_bucket world_s3_no_bounds);
    [reflexivity | discriminate].
Defined.

Lemma remote_discovery_fault_is_shown_example :
  run_cycle world_s3_stray_key
  = ([(Main, StError (MsgS3List ValueError)); (Main, StWarning MsgNoDevices)],
     Ok tt).
Proof.
  apply (remote_discovery_fault_is_shown world_s3_stray_key "telemetry"
           ValueError); try reflexivity.
  right. eexists. split; reflexivity.
Defined.

Lemma empty_sample_window_is_no_data_example :
  device_region world_header_only "" 0 1 [] = ([no_valid_data 0 1], [], Ok tt).
Proof.
  apply (empty_sample_window_is_no_data world_header_only "" 0 1 [] [] []
           (mkData {| columns := ["time"; "freq"; "freq_filtered"];
                      rows := [] |} [])
           (Some bounds_frame)); reflexivity.
Defined.

Lemma checked_device_column_example :
  show_device world_two_alerts 1 2 (sample_data 120 118) (Some bounds_frame) []
  = (metrics 1 2 (float_of_Z 118) (float_of_Z 30)
       ++ [(Col 1, StError MsgFreqOutOfBounds);
           (Col 1, StAudio "/app/artifacts/warning.wav" true true)]
       ++ [(Col 1, StPlotlyChart
                     (mkFigure
                        (series_of (sample_data 120 118)
                                   [CNum (float_of_Z 120)]
                                   [CNum (float_of_Z 118)]
                           ++ bands (CNum (float_of_Z 90))
                                    (CNum (float_of_Z 110))
                                    (CNum (float_of_Z 118))
                                    (CNum (float_of_Z 118)))
                        2 None))],
     ["/app/artifacts/warning.wav"], Ok tt).
Proof.
  apply (checked_device_column world_two_alerts 1 2 (sample_data 120 118)
           bounds_frame (CNum (float_of_Z 118)) (CNum (float_of_Z 90))
           (CNum (float_of_Z 110)) (float_of_Z 118) (float_of_Z 30) true []);
    try reflexivity.
  unfold reads. do 4 eexists. repeat split; reflexivity.
Defined.

Lemma nan_never_alerts_example :
  check_bounds world_in_bounds 0 (Some bounds_frame) (CNum S754_nan)
    S754_nan []
  = ([(Col 0%nat, StSuccess MsgWithinBounds)], [], Ok tt).
Proof.
  apply (nan_never_alerts world_in_bounds 0 bounds_frame (float_of_Z 90)
           (float_of_Z 110) []); reflexivity.
Defined.

Lemma text_bounds_raise_example :
  check_bounds world_in_bounds 0 (Some bounds_text_max)
    (CNum (float_of_Z 98)) (float_of_Z 30) []
  = ([], [], Raise TypeError).
Proof.
  apply (proj2 (text_bounds_raise world_in_bounds 0 bounds_text_max
                  (float_of_Z 98) "abc" (float_of_Z 30) [] eq_refl)
           (float_of_Z 90)); reflexivity.
Defined.

Lemma figure_follows_bounds_example :
  fig_title_device figure_in_bounds = 1 /\
  fig_yrange figure_in_bounds = None.
Proof.
  destruct (figure_follows_bounds world_in_bounds (sample_data 100 98)
              (Some bounds_frame) 1 figure_in_bounds eq_refl)
    as [Htitle [freq [filtered [_ [_ [_ [_ [Hnone _]]]]]]]].
  split; [exact Htitle | apply Hnone; reflexivity].
Defined.

Lemma dashboard_runs_while_devices_are_found_example :
  dashboard [world_in_bounds; world_two_alerts; world_no_devices;
             world_in_bounds]
  = [page_of world_in_bounds; page_of world_two_alerts;
     page_of world_no_devices].
Proof.
  apply (proj2 (dashboard_runs_while_devices_are_found
                  [world_in_bounds; world_two_alerts] eq_refl)
           world_no_devices [world_in_bounds]).
  reflexivity.
Defined.
